(** * SmartStitch: the GUI stitch process ([gui/process.py])

    A shallow embedding of [GuiStitchProcess.run], its error-reporting
    wrapper [run_with_error_msgs] and the upscaler launcher [run_waifu2x],
    followed by the properties of the progress accounting, of the upscaler
    dispatch and of the error paths.

    The collaborators of [core.services] and [core.detectors] (settings,
    directory explorer, image handler, image manipulator, detector,
    post-process runner) and the operating system (child processes, the
    clock) are not part of [process.py]: they are taken as oracles that may
    raise.  Everything [process.py] itself computes is written out: the
    progress arithmetic, the status messages, the keyword-argument
    dictionaries and the two command lines. *)

From Stdlib Require Import ZArith QArith Floats String Lia Lqa.
From stdpp Require Import base option list strings gmap pretty.

Local Open Scope string_scope.
Local Open Scope Z_scope.

(** ** Python values *)

(** The values that travel through [kwargs] and through the settings
    store.  The file only ever tests them for truth, concatenates them as
    strings or converts them with [str()]; a float among them is therefore
    carried as the text [repr()] gives for it ([2.0] is [VFloat "2.0"]). *)
Inductive pyval : Type :=
  | VNone
  | VBool (b : bool)
  | VInt (z : Z)
  | VFloat (repr : string)
  | VStr (s : string).

#[global] Instance pyval_eq_dec : EqDecision pyval.
Proof. solve_decision. Defined.

(** [str(v)] *)
Definition py_str (v : pyval) : string :=
  match v with
  | VNone => "None"
  | VBool true => "True"
  | VBool false => "False"
  | VInt z => pretty z
  | VFloat r => r
  | VStr s => s
  end.

(** Truth value of [v], as [if v:] and [not v] take it. *)
Definition truthy (v : pyval) : bool :=
  match v with
  | VNone => false
  | VBool b => b
  | VInt z => negb (z =? 0)
  | VFloat r => negb (String.eqb r "0.0" || String.eqb r "-0.0")
  | VStr s => negb (String.eqb s "")
  end.

(** [s.endswith(suffix)] *)
Definition endswith (s suffix : string) : bool :=
  (String.length suffix <=? String.length s)%nat
  && String.eqb
       (substring (String.length s - String.length suffix)
                  (String.length suffix) s)
       suffix.

(** [d.get(key, default)] on a keyword dictionary. *)
Definition kw_get (d : gmap string pyval) (key : string) (dflt : pyval) : pyval :=
  default dflt (d !! key).

(** ** Exceptions *)

Inductive exn_class : Type :=
  | ZeroDivisionError
  | UnboundLocalError
  | TypeError
  | KeyError
  | FileNotFoundError
  | OSError
  | CalledProcessError (stderr : string)
  | OtherException (name : string)
  | KeyboardInterrupt
  | SystemExit.

Record exn : Type := Exn { exn_cls : exn_class; exn_msg : string }.

(** [isinstance(e, Exception)]: what [except Exception] catches.
    [KeyboardInterrupt] and [SystemExit] derive from [BaseException]
    only. *)
Definition is_Exception (e : exn) : bool :=
  match exn_cls e with
  | KeyboardInterrupt | SystemExit => false
  | _ => true
  end.

Inductive result (A : Type) : Type :=
  | Ok (a : A)
  | Raise (e : exn).
Arguments Ok {A} a.
Arguments Raise {A} e.

(** ** Float arithmetic

    [percentage] is a Python [float].  The arithmetic the file performs on
    it is kept behind a small signature so that the same embedding runs on
    IEEE binary64 (what CPython computes) and on exact rationals (what the
    weights mean). *)
Record Arith : Type := {
  num : Type;
  lit : Z -> num;            (* a float with an integral value: [5.0], [float(n)] *)
  add : num -> num -> num;
  mul : num -> num -> num;
  div : num -> num -> num;
  eqb : num -> num -> bool;  (* [==] *)
  ltb : num -> num -> bool   (* [<] *)
}.

(** What is handed to [status_func] as the percentage: the float
    accumulator, or one of the [int] literals [0], [95], [100]. *)
Inductive pynum (A : Arith) : Type :=
  | PInt (z : Z)
  | PFloat (x : num A).
Arguments PInt {A} z.
Arguments PFloat {A} x.

(** The float a percentage compares as. *)
Definition as_float {A : Arith} (p : pynum A) : num A :=
  match p with
  | PInt z => lit A z
  | PFloat x => x
  end.

(** [a < b] on percentages. *)
Definition pynum_lt {A : Arith} (a b : pynum A) : bool :=
  ltb A (as_float a) (as_float b).

(** The float of a positive integer, by doubling.  Every intermediate
    value is an integer below the argument, so the result is exact (and is
    what [float(n)] gives) up to [2^53], far beyond any list length. *)
Fixpoint float_of_pos (p : positive) : float :=
  match p with
  | xH => 1%float
  | xO q => (2 * float_of_pos q)%float
  | xI q => (2 * float_of_pos q + 1)%float
  end.

Definition float_of_Z (z : Z) : float :=
  match z with
  | Z0 => 0%float
  | Zpos p => float_of_pos p
  | Zneg p => (- float_of_pos p)%float
  end.

(** IEEE 754 binary64, rounding to nearest even: CPython's [float]. *)
Definition binary64 : Arith := {|
  num := float;
  lit := float_of_Z;
  add := PrimFloat.add;
  mul := PrimFloat.mul;
  div := PrimFloat.div;
  eqb := PrimFloat.eqb;
  ltb := PrimFloat.ltb
|}.

(** Exact rational arithmetic. *)
Definition exact : Arith := {|
  num := Q;
  lit := inject_Z;
  add := Qplus;
  mul := Qmult;
  div := Qdiv;
  eqb := Qeq_bool;
  ltb := fun a b => negb (Qle_bool b a)
|}.


(** ** The world the process acts on *)

(** What a run leaves behind: the calls made to [status_func], the keys
    asked of the settings store, the settings handed to [detector.run],
    the command lines launched, the lines printed, and the paths that exist
    on disk. *)
Record World (A : Arith) : Type := mkWorld {
  statuses : list (pynum A * string);
  settings_reads : list string;
  detector_calls : list (pyval * pyval * pyval * pyval);
  launched : list (list pyval);
  printed : list string;
  disk : gset string
}.
Arguments mkWorld {A}.
Arguments statuses {A}.
Arguments settings_reads {A}.
Arguments detector_calls {A}.
Arguments launched {A}.
Arguments printed {A}.
Arguments disk {A}.

Definition world0 {A : Arith} (d : gset string) : World A :=
  mkWorld [] [] [] [] [] d.

(** A collaborator call: it sees and may change the disk, and may raise. *)
Definition IO (X : Type) : Type := gset string -> result X * gset string.

(** The collaborators [gui/process.py] imports, and the operating system. *)
Record Services : Type := {
  workdir : Type;
  image : Type;
  combined : Type;
  points : Type;
  detector : Type;
  (* SettingsHandler().load(key) *)
  settings_load : string -> result pyval;
  (* select_detector(detection_type=...) *)
  select_detector : pyval -> IO detector;
  (* DirectoryExplorer().run(input=..., output_path=...) *)
  explorer_run : pyval -> pyval -> IO (list workdir);
  (* ImageHandler().load(dir) *)
  img_load : workdir -> IO (list image);
  (* ImageManipulator().resize(imgs, enforce_type, enforce_width) *)
  img_resize : list image -> pyval -> pyval -> IO (list image);
  (* ImageManipulator().combine(imgs) *)
  img_combine : list image -> IO combined;
  (* detector.run(combined_img, split_height, sensitivity=, ignorable_pixels=, scan_step=) *)
  detector_run : detector -> combined -> pyval -> pyval -> pyval -> pyval -> IO points;
  (* ImageManipulator().slice(combined_img, slice_points) *)
  img_slice : combined -> points -> IO (list image);
  (* ImageHandler().save(dir, img, img_iteration, img_format=, quality=) *)
  img_save : workdir -> image -> nat -> pyval -> pyval -> IO string;
  (* PostProcessRunner().run(workdirectory=, postprocess_app=, postprocess_args=, console_func=) *)
  postprocess_run : workdir -> pyval -> pyval -> IO unit;
  (* the child process behind subprocess.run: exit code and captured stderr,
     or the error raised when it cannot be launched *)
  spawn : list pyval -> IO (Z * string);
  (* end_time - start_time, as "{time:.3f}" renders it *)
  elapsed : string
}.

(** ** State and exceptions *)

Definition M (A : Arith) (X : Type) : Type := World A -> result X * World A.

#[global] Instance M_ret (A : Arith) : MRet (M A) :=
  fun X x w => (Ok x, w).

#[global] Instance M_bind (A : Arith) : MBind (M A) :=
  fun X Y f m w =>
    match m w with
    | (Ok x, w') => f x w'
    | (Raise e, w') => (Raise e, w')
    end.

Section Process.
Context {A : Arith} (svc : Services).

Definition raise {X} (e : exn) : M A X := fun w => (Raise e, w).

Definition lift {X} (r : result X) : M A X := fun w => (r, w).

(** A collaborator call, run against the current disk. *)
Definition call {X} (c : IO X) : M A X :=
  fun w =>
    let '(r, d) := c (disk w) in
    (r, mkWorld (statuses w) (settings_reads w) (detector_calls w)
                (launched w) (printed w) d).

(** [try: body / except <class matched by handler> as e: handler e] *)
Definition try_except {X} (body : M A X) (handler : exn -> option (M A X)) : M A X :=
  fun w =>
    match body w with
    | (Ok x, w') => (Ok x, w')
    | (Raise e, w') =>
        match handler e with
        | Some h => h w'
        | None => (Raise e, w')
        end
    end.

(** [status_func(percentage, message)] *)
Definition status_func (percentage : pynum A) (message : string) : M A unit :=
  fun w =>
    (Ok tt, mkWorld (statuses w ++ [(percentage, message)]) (settings_reads w)
                    (detector_calls w) (launched w) (printed w) (disk w)).

(** [print(line)] *)
Definition print (line : string) : M A unit :=
  fun w =>
    (Ok tt, mkWorld (statuses w) (settings_reads w) (detector_calls w)
                    (launched w) (printed w ++ [line]) (disk w)).

(** [settings.load(key)] *)
Definition load (key : string) : M A pyval :=
  fun w =>
    (settings_load svc key,
     mkWorld (statuses w) (settings_reads w ++ [key]) (detector_calls w)
             (launched w) (printed w) (disk w)).

(** ** [run_waifu2x] *)

(** [subprocess.run(command, check=True, stdout=PIPE, stderr=PIPE)]: the
    command is launched; a non-zero exit status raises
    [CalledProcessError], a failed launch raises what the system raised. *)
Definition subprocess_run (command : list pyval) : M A unit :=
  fun w =>
    let w1 := mkWorld (statuses w) (settings_reads w) (detector_calls w)
                      (launched w ++ [command]) (printed w) (disk w) in
    (r ← call (spawn svc command);
     let '(code, err) := r in
     if code =? 0 then mret tt
     else raise (Exn (CalledProcessError err)
                     "Command returned non-zero exit status.")) w1.

(** [p] is [root] or lies below it. *)
Definition in_tree (root p : string) : bool :=
  String.eqb p root || String.prefix (root ++ "/") p.

(** [shutil.rmtree(path)] *)
Definition rmtree (path : string) : M A unit :=
  fun w =>
    if decide (path ∈ disk w) then
      (Ok tt, mkWorld (statuses w) (settings_reads w) (detector_calls w)
                      (launched w) (printed w)
                      (filter (fun p => in_tree path p = false) (disk w)))
    else
      (Raise (Exn FileNotFoundError "[Errno 2] No such file or directory"), w).

(** The [command] list of the ["caffe"] branch. *)
Definition caffe_command (input_path : string) (output_path : pyval)
    (kwargs : gmap string pyval) : list pyval :=
  [ kw_get kwargs "path" (VStr "");
    VStr "-i"; VStr input_path;
    VStr "-o"; output_path;
    VStr "-e"; VStr (py_str (kw_get kwargs "type" VNone));
    VStr "-m"; VStr (py_str (kw_get kwargs "mode" (VStr "noise_scale")));
    VStr "-s"; VStr (py_str (kw_get kwargs "scale_ratio" (VFloat "2.0")));
    VStr "-n"; VStr (py_str (kw_get kwargs "noise_level" (VInt 0)));
    VStr "-p"; VStr (py_str (kw_get kwargs "processWaifu" (VStr "cpu")));
    VStr "-c"; VStr (py_str (kw_get kwargs "crop_size" (VInt 128)));
    VStr "-q"; VStr (py_str (kw_get kwargs "output_quality" (VInt (-1))));
    VStr "-d"; VStr (py_str (kw_get kwargs "output_depth" (VInt 8)));
    VStr "-b"; VStr (py_str (kw_get kwargs "batch_size" (VInt 1)));
    VStr "--gpu"; VStr (py_str (kw_get kwargs "gpu_device" (VInt 0)));
    VStr "-t"; VStr (py_str (kw_get kwargs "tta" (VInt 0))) ].

(** The [command] list of the ["vulkan"] branch. *)
Definition vulkan_command (input_path : string) (output_path : pyval)
    (kwargs : gmap string pyval) : list pyval :=
  [ kw_get kwargs "path" (VStr "");
    VStr "-i"; VStr input_path;
    VStr "-o"; output_path;
    VStr "-n"; VStr (py_str (kw_get kwargs "noise_level" (VInt (-1))));
    VStr "-s"; VStr (py_str (kw_get kwargs "scale_ratio" (VInt 1)));
    VStr "-t"; VStr (py_str (kw_get kwargs "tile_size" (VInt 0)));
    VStr "-m"; kw_get kwargs "model" VNone;
    VStr "-g"; VStr (py_str (kw_get kwargs "gpu_id" (VInt 0)));
    VStr "-x";
    VStr "-f"; VStr (py_str (kw_get kwargs "output_format" (VStr "png"))) ].

(** The [except subprocess.CalledProcessError as e] clause of either
    branch. *)
Definition on_called_process_error (variant : string) (e : exn)
    : option (M A unit) :=
  match exn_cls e with
  | CalledProcessError stderr =>
      Some (print ("Error executing " ++ variant ++ " command: " ++ stderr))
  | _ => None
  end.

Definition run_waifu2x (input_path : string) (output_path : pyval)
    (waifu_type : string) (kwargs : gmap string pyval) : M A unit :=
  let waifu2x_path := kw_get kwargs "path" (VStr "") in
  (if String.eqb waifu_type "caffe" then
     if truthy waifu2x_path then
       try_except (subprocess_run (caffe_command input_path output_path kwargs))
                  (on_called_process_error "caffe")
     else mret tt
   else if String.eqb waifu_type "vulkan" then
     if truthy waifu2x_path then
       try_except (subprocess_run (vulkan_command input_path output_path kwargs))
                  (on_called_process_error "vulkan")
     else mret tt
   else mret tt);;
  if String.eqb waifu_type "caffe" || String.eqb waifu_type "vulkan" then
    rmtree input_path
  else mret tt.

(** ** [GuiStitchProcess.run] *)

(** [float(n)] for a length. *)
Definition float_of_nat (n : nat) : num A := lit A (Z.of_nat n).

(** [a / b] on floats. *)
Definition pydiv (a b : num A) : M A (num A) :=
  if eqb A b (lit A 0) then
    raise (Exn ZeroDivisionError "float division by zero")
  else mret (div A a b).

(** [step_percentages.get(key)], as an operand: [None], which [get] gives
    for a key the table lacks, raises [TypeError] there.  (Every key [run]
    asks for is in the table.) *)
Definition weight (step_percentages : gmap string (num A)) (key : string)
    : M A (num A) :=
  match step_percentages !! key with
  | Some w => mret w
  | None =>
      raise (Exn TypeError
               "unsupported operand type(s): 'NoneType' and 'float'")
  end.

(** [v + suffix] where [suffix] is a [str]. *)
Definition py_add (v : pyval) (suffix : string) : result string :=
  match v with
  | VStr a => Ok (a ++ suffix)
  | _ => Raise (Exn TypeError "unsupported operand type(s) for +")
  end.

(** [prefix + v] where [prefix] is a [str]. *)
Definition str_add (prefix : string) (v : pyval) : result string :=
  match v with
  | VStr a => Ok (prefix ++ a)
  | _ => Raise (Exn TypeError "can only concatenate str to str")
  end.

(** ["Working - [{iteration}/{count}] " + text] *)
Definition working (iteration count : nat) (text : string) : string :=
  "Working - [" ++ pretty iteration ++ "/" ++ pretty count ++ "] " ++ text.

(** The table [step_percentages] as first written. *)
Definition step_percentages0 : gmap string (num A) :=
  {[ "explore" := lit A 5;
     "load" := lit A 15;
     "combine" := lit A 5;
     "detect" := lit A 15;
     "slice" := lit A 10;
     "save" := lit A 30;
     "postprocess" := lit A 20 ]}.

(** [detector.run(combined_img, split_height, sensitivity=...,
    ignorable_pixels=..., scan_step=...)]; the settings it is handed are
    recorded. *)
Definition detect (det : detector svc) (combined_img : combined svc)
    (split_height sensitivity ignorable_pixels scan_step : pyval)
    : M A (points svc) :=
  fun w =>
    call (detector_run svc det combined_img split_height sensitivity
            ignorable_pixels scan_step)
      (mkWorld (statuses w) (settings_reads w)
         (detector_calls w
            ++ [(split_height, sensitivity, ignorable_pixels, scan_step)])
         (launched w) (printed w) (disk w)).

(** [for img in imgs:] of one working directory. *)
Fixpoint save_images (step_percentages : gmap string (num A))
    (input_dirs_count dir_iteration : nat) (dir : workdir svc)
    (img_count : nat) (imgs : list (image svc)) (img_iteration : nat)
    (percentage : num A) : M A (num A) :=
  match imgs with
  | [] => mret percentage
  | img :: rest =>
      output_type ← load "output_type";
      lossy_quality ← load "lossy_quality";
      img_file_name ←
        call (img_save svc dir img img_iteration output_type lossy_quality);
      w ← weight step_percentages "save";
      inc ← pydiv w (mul A (float_of_nat input_dirs_count)
                           (float_of_nat img_count));
      let percentage := add A percentage inc in
      status_func (PFloat percentage)
        (working dir_iteration input_dirs_count
           (img_file_name ++ " has been successfully saved"));;
      save_images step_percentages input_dirs_count dir_iteration dir
        img_count rest (S img_iteration) percentage
  end.

(** The body of [for dir in input_dirs:]; it returns the new
    [percentage].  ([gc.collect()] changes nothing that is modelled.) *)
Definition process_dir (det : detector svc)
    (step_percentages : gmap string (num A))
    (input_dirs_count dir_iteration : nat) (dir : workdir svc)
    (percentage : num A) : M A (num A) :=
  status_func (PFloat percentage)
    (working dir_iteration input_dirs_count
       "Preparing & loading images Into memory");;
  imgs ← call (img_load svc dir);
  enforce_type ← load "enforce_type";
  enforce_width ← load "enforce_width";
  imgs ← call (img_resize svc imgs enforce_type enforce_width);
  w ← weight step_percentages "load";
  inc ← pydiv w (float_of_nat input_dirs_count);
  let percentage := add A percentage inc in
  status_func (PFloat percentage)
    (working dir_iteration input_dirs_count
       "Combining images into a single combined image");;
  combined_img ← call (img_combine svc imgs);
  w ← weight step_percentages "combine";
  inc ← pydiv w (float_of_nat input_dirs_count);
  let percentage := add A percentage inc in
  status_func (PFloat percentage)
    (working dir_iteration input_dirs_count
       "Detecting & selecting valid slicing points");;
  split_height ← load "split_height";
  sensitivity ← load "senstivity";
  ignorable_pixels ← load "ignorable_pixels";
  scan_step ← load "scan_step";
  slice_points ←
    detect det combined_img split_height sensitivity ignorable_pixels
      scan_step;
  w ← weight step_percentages "detect";
  inc ← pydiv w (float_of_nat input_dirs_count);
  let percentage := add A percentage inc in
  status_func (PFloat percentage)
    (working dir_iteration input_dirs_count
       "Generating sliced output images in memory");;
  imgs ← call (img_slice svc combined_img slice_points);
  w ← weight step_percentages "slice";
  inc ← pydiv w (float_of_nat input_dirs_count);
  let percentage := add A percentage inc in
  status_func (PFloat percentage)
    (working dir_iteration input_dirs_count
       "Saving output images to storage");;
  let img_count := length imgs in
  percentage ←
    save_images step_percentages input_dirs_count dir_iteration dir
      img_count imgs 1%nat percentage;
  run_postprocess ← load "run_postprocess";
  if truthy run_postprocess then
    status_func (PFloat percentage)
      (working dir_iteration input_dirs_count
         "Running post process on output files");;
    postprocess_app ← load "postprocess_app";
    postprocess_args ← load "postprocess_args";
    call (postprocess_run svc dir postprocess_app postprocess_args);;
    w ← weight step_percentages "postprocess";
    inc ← pydiv w (mul A (float_of_nat input_dirs_count)
                         (float_of_nat img_count));
    mret (add A percentage inc)
  else mret percentage.

(** [for dir in input_dirs:] with its counter [dir_iteration]. *)
Fixpoint process_dirs (det : detector svc)
    (step_percentages : gmap string (num A)) (input_dirs_count : nat)
    (input_dirs : list (workdir svc)) (dir_iteration : nat)
    (percentage : num A) : M A (num A) :=
  match input_dirs with
  | [] => mret percentage
  | dir :: rest =>
      percentage ←
        process_dir det step_percentages input_dirs_count dir_iteration dir
          percentage;
      process_dirs det step_percentages input_dirs_count rest
        (S dir_iteration) percentage
  end.

(** The [kwargs_waifu] dictionary of the [cui.exe] branch. *)
Definition caffe_kwargs (kwargs : gmap string pyval) (model : string)
    : gmap string pyval :=
  {[ "mode" := kw_get kwargs "mode" (VStr "noise_scale");
     "scale_ratio" := VStr (py_str (kw_get kwargs "scale_ratio" (VFloat "2.0")));
     "noise_level" := VStr (py_str (kw_get kwargs "noise_level" (VInt 0)));
     "crop_size" := VStr (py_str (kw_get kwargs "crop_size" (VInt 128)));
     "output_quality" := VStr (py_str (kw_get kwargs "output_quality" (VInt (-1))));
     "output_depth" := VStr (py_str (kw_get kwargs "output_depth" (VInt 8)));
     "batch_size" := VStr (py_str (kw_get kwargs "batch_size" (VInt 1)));
     "gpu_device" := VStr (py_str (kw_get kwargs "gpu_device" (VInt 0)));
     "tta" := VStr (py_str (kw_get kwargs "tta" (VInt 0)));
     "model" := VStr model;
     "path" := VStr (py_str (kw_get kwargs "waifu2x_path" (VStr "")));
     "type" := VStr (py_str (kw_get kwargs "output_type" (VStr ".png")));
     "processWaifu" := VStr (py_str (kw_get kwargs "processWaifu" (VStr "cpu"))) ]}.

(** The [kwargs_waifu] dictionary of the [vulkan.exe] branch. *)
Definition vulkan_kwargs (kwargs : gmap string pyval) (model : string)
    : gmap string pyval :=
  {[ "noise_level" := VStr (py_str (kw_get kwargs "noise_level" (VInt (-1))));
     "scale_ratio" := VStr (py_str (kw_get kwargs "scale_ratio" (VInt 1)));
     "tile_size" := VStr (py_str (kw_get kwargs "tile" (VInt 0)));
     "gpu_id" :=
       VStr (py_str (VInt (if String.eqb
                                (py_str (kw_get kwargs "processWaifu" (VStr "cpu")))
                                "cpu"
                           then -1 else 0)));
     "output_format" := VStr (py_str (kw_get kwargs "output_type" (VStr ".png")));
     "path" := VStr (py_str (kw_get kwargs "waifu2x_path" (VStr "")));
     "model" := VStr model;
     "type" := VStr (py_str (kw_get kwargs "output_type" (VStr ".png"))) ]}.

(** What reading the local [waifu_type] raises while it is unbound
    (the wording of the message is CPython 3.11's). *)
Definition unbound_waifu_type : exn :=
  Exn UnboundLocalError
    "cannot access local variable 'waifu_type' where it is not associated with a value".

(** The two locals [waifu_type] and [kwargs_waifu] after the
    [if ... elif ...] on the upscaler path: both bound, or (no branch
    taken) both unbound. *)
Definition bind_waifu (kwargs : gmap string pyval)
    : M A (option (string * gmap string pyval)) :=
  let waifu2x_path := py_str (kw_get kwargs "waifu2x_path" (VStr "")) in
  if endswith waifu2x_path "cui.exe" then
    model ← lift (str_add "models/" (kw_get kwargs "profile" (VStr "cunet")));
    mret (Some ("caffe", caffe_kwargs kwargs model))
  else if endswith waifu2x_path "vulkan.exe" then
    model ← lift (str_add "models/" (kw_get kwargs "profile" (VStr "cunet")));
    mret (Some ("vulkan", vulkan_kwargs kwargs model))
  else mret None.

(** ["Idle - Process completed in {time:.3f} seconds"] *)
Definition completed : string :=
  "Idle - Process completed in " ++ elapsed svc ++ " seconds".

(** [run] up to the end of [for dir in input_dirs:]; it returns the local
    [percentage] as accumulated there. *)
Definition stitch (kwargs : gmap string pyval) : M A (num A) :=
  detector_type ← load "detector_type";
  det ← call (select_detector svc detector_type);
  let input_path := kw_get kwargs "input_path" (VStr "") in
  let output_path := kw_get kwargs "output_path" (VStr "") in
  let use_waifu2x := kw_get kwargs "use_waifu2x" (VBool false) in
  let step_percentages := step_percentages0 in
  has_postprocess ← load "run_postprocess";
  let step_percentages :=
    if negb (truthy has_postprocess)
    then <["save" := lit A 50]> step_percentages
    else step_percentages in
  let percentage := lit A 0 in
  status_func (PFloat percentage)
    "Exploring input directory for working directories";;
  input_dirs ←
    (if truthy use_waifu2x then
       tmp ← lift (py_add output_path "/tmp");
       call (explorer_run svc input_path (VStr tmp))
     else call (explorer_run svc input_path output_path));
  let input_dirs_count := length input_dirs in
  status_func (PFloat percentage)
    ("Working - [" ++ pretty input_dirs_count
       ++ "] Working directories were found");;
  w ← weight step_percentages "explore";
  let percentage := add A percentage w in
  process_dirs det step_percentages input_dirs_count input_dirs 1%nat
    percentage.

(** The upscale dispatch of [run]: the [if ... elif ...] that binds
    [waifu_type] and [kwargs_waifu], and the call of [run_waifu2x].
    The arguments of that call are evaluated left to right:
    [output_path + "/tmp"] before the read of [waifu_type]. *)
Definition upscale (kwargs : gmap string pyval) : M A unit :=
  let output_path := kw_get kwargs "output_path" (VStr "") in
  bound ← bind_waifu kwargs;
  tmp ← lift (py_add output_path "/tmp");
  match bound with
  | None => raise unbound_waifu_type
  | Some (waifu_type, kwargs_waifu) =>
      run_waifu2x tmp output_path waifu_type kwargs_waifu
  end.

Definition run (kwargs : gmap string pyval) : M A unit :=
  let use_waifu2x := kw_get kwargs "use_waifu2x" (VBool false) in
  percentage ← stitch kwargs;
  if truthy use_waifu2x then
    status_func (PInt 95) "Waifu2x-Caffe is processing";;
    upscale kwargs;;
    status_func (PInt 100) completed
  else
    status_func (PInt 100) completed.

(** ** [GuiStitchProcess.run_with_error_msgs]

    The decorator [logFunc] comes from [core.services]; it is taken to call
    the method it wraps and to pass on what it returns or raises. *)

(** The [except Exception as error] clause. *)
Definition report_error (error : exn) : option (M A unit) :=
  if is_Exception error then
    Some (status_func (PInt 0) ("Idle - " ++ exn_msg error);; raise error)
  else None.

Definition run_with_error_msgs (kwargs : gmap string pyval) : M A unit :=
  try_except (run kwargs) report_error.

End Process.

(** ** Concrete collaborators

    A fixed settings store, a fixed list of working directories, a fixed
    number of images that every slicing yields, and a fixed fate for the
    child process.  The image data itself plays no part in what
    [process.py] computes and is left out: an image is its number. *)

(** A settings store backed by a dictionary; an absent key raises. *)
Definition settings_of (store : gmap string pyval) (key : string) : result pyval :=
  match store !! key with
  | Some v => Ok v
  | None => Raise (Exn KeyError key)
  end.

Definition pure_io {X} (x : X) : IO X := fun d => (Ok x, d).

Definition stub (store : gmap string pyval) (dirs : list string)
    (images : nat) (child : result (Z * string)) : Services := {|
  workdir := string;
  image := nat;
  combined := unit;
  points := unit;
  detector := unit;
  settings_load := settings_of store;
  select_detector := fun _ => pure_io tt;
  explorer_run := fun _ _ => pure_io dirs;
  img_load := fun _ => pure_io [1%nat];
  img_resize := fun imgs _ _ => pure_io imgs;
  img_combine := fun _ => pure_io tt;
  detector_run := fun _ _ _ _ _ _ => pure_io tt;
  img_slice := fun _ _ => pure_io (seq 1 images);
  img_save := fun dir _ i _ _ => pure_io (dir ++ "/" ++ pretty i ++ ".png");
  postprocess_run := fun _ _ _ => pure_io tt;
  spawn := fun _ d => (child, d);
  elapsed := "0.000"
|}.

Definition store0 (pp : bool) : gmap string pyval :=
  {[ "detector_type" := VStr "pixel"; "run_postprocess" := VBool pp;
     "postprocess_app" := VStr ""; "postprocess_args" := VStr "";
     "enforce_type" := VInt 0; "enforce_width" := VInt 720;
     "split_height" := VInt 5000; "senstivity" := VInt 90;
     "ignorable_pixels" := VInt 5; "scan_step" := VInt 5;
     "output_type" := VStr ".png"; "lossy_quality" := VInt 100 ]}.

(** * Reasoning about runs *)

Local Open Scope list_scope.

Section Steps.
Context {A : Arith} (svc : Services).

(** ** Runs that return: one step at a time *)

Lemma bind_Ok {X Y} (m : M A X) (f : X -> M A Y) w y w' :
  (m ≫= f) w = (Ok y, w') ->
  exists x w1, m w = (Ok x, w1) /\ f x w1 = (Ok y, w').
Proof.
  unfold mbind, M_bind. destruct (m w) as [[x|e] w1]; intros H.
  - eauto.
  - discriminate.
Qed.

Lemma ret_Ok {X} (x y : X) (w w' : World A) :
  mret (M := M A) x w = (Ok y, w') -> y = x /\ w' = w.
Proof. unfold mret, M_ret. intros H. by inversion H. Qed.

Lemma raise_Ok {X} e (y : X) (w w' : World A) :
  raise e w = (Ok y, w') -> False.
Proof. discriminate. Qed.

Lemma lift_Ok {X} (r : result X) (y : X) (w w' : World A) :
  lift r w = (Ok y, w') -> r = Ok y /\ w' = w.
Proof. unfold lift. intros H. by inversion H. Qed.

Lemma status_Ok p msg x (w w' : World A) :
  status_func p msg w = (Ok x, w') ->
  statuses w' = (statuses w ++ [(p, msg)])%list.
Proof. unfold status_func. intros H. by inversion H. Qed.

Lemma call_Ok {X} (c : IO X) (x : X) (w w' : World A) :
  call c w = (Ok x, w') ->
  statuses w' = statuses w /\ exists d, c (disk w) = (Ok x, d).
Proof.
  unfold call. destruct (c (disk w)) as [r d] eqn:E. intros H.
  inversion H; subst. eauto.
Qed.

Lemma load_Ok key v (w w' : World A) :
  load svc key w = (Ok v, w') ->
  statuses w' = statuses w /\ settings_load svc key = Ok v.
Proof. unfold load. intros H. by inversion H. Qed.

Lemma weight_Ok tbl key x (w w' : World A) :
  weight tbl key w = (Ok x, w') -> w' = w /\ tbl !! key = Some x.
Proof.
  unfold weight. destruct (tbl !! key) as [y|]; intros H.
  - apply ret_Ok in H as [-> ->]. done.
  - discriminate.
Qed.

Lemma pydiv_Ok a b x (w w' : World A) :
  pydiv a b w = (Ok x, w') ->
  w' = w /\ x = div A a b /\ eqb A b (lit A 0) = false.
Proof.
  unfold pydiv. destruct (eqb A b (lit A 0)); intros H.
  - discriminate.
  - apply ret_Ok in H as [-> ->]. done.
Qed.

Lemma detect_Ok det c sh se ig sc x (w w' : World A) :
  detect svc det c sh se ig sc w = (Ok x, w') ->
  statuses w' = statuses w.
Proof. unfold detect. intros H. apply call_Ok in H as [H _]. done. Qed.

End Steps.

(** One step of a run that returned. *)
Ltac step_ok :=
  match goal with
  | H : mbind _ _ _ = (Ok _, _) |- _ =>
      let H1 := fresh "Hstep" in
      apply bind_Ok in H as (? & ? & H1 & H); cbv beta zeta in H
  | H : mret _ _ = (Ok _, _) |- _ => apply ret_Ok in H as [? ?]; subst
  | H : raise _ _ = (Ok _, _) |- _ => by apply raise_Ok in H
  | H : lift _ _ = (Ok _, _) |- _ => apply lift_Ok in H as [? ?]; subst
  | H : status_func _ _ _ = (Ok _, _) |- _ => apply status_Ok in H
  | H : call _ _ = (Ok _, _) |- _ => apply call_Ok in H as [? [? ?]]
  | H : load _ _ _ = (Ok _, _) |- _ => apply load_Ok in H as [? ?]
  | H : detect _ _ _ _ _ _ _ _ = (Ok _, _) |- _ => apply detect_Ok in H
  | H : weight _ _ _ = (Ok _, _) |- _ => apply weight_Ok in H as [? ?]; subst
  | H : pydiv _ _ _ = (Ok _, _) |- _ => apply pydiv_Ok in H as (? & ? & ?); subst
  end.

(** ** The percentages a run that returns has emitted

    [dirs_steps] is the progress arithmetic of [run] on its own: the
    percentages handed to [status_func] while the working directories are
    processed, and the value [percentage] ends with.  [stitch_steps] below
    ties it to the embedding. *)

Section Percentages.
Context {A : Arith}.

(** [step_percentages.get(key)], where the key is in the table. *)
Definition wt (tbl : gmap string (num A)) (key : string) : num A :=
  default (lit A 0) (tbl !! key).

(** The [k] percentages of the save loop that starts from [p] and adds
    [inc] per image, and the value it ends with. *)
Fixpoint save_steps (inc : num A) (k : nat) (p : num A) : list (num A) * num A :=
  match k with
  | O => ([], p)
  | S k' =>
      let p' := add A p inc in
      let '(l, q) := save_steps inc k' p' in
      (p' :: l, q)
  end.

(** One working directory that yields [imgs] images, among [dirs], with
    post-processing switched as [pp] says. *)
Definition dir_steps (tbl : gmap string (num A)) (dirs imgs : nat) (pp : bool)
    (p : num A) : list (num A) * num A :=
  let p1 := add A p (div A (wt tbl "load") (float_of_nat dirs)) in
  let p2 := add A p1 (div A (wt tbl "combine") (float_of_nat dirs)) in
  let p3 := add A p2 (div A (wt tbl "detect") (float_of_nat dirs)) in
  let p4 := add A p3 (div A (wt tbl "slice") (float_of_nat dirs)) in
  let per_image := mul A (float_of_nat dirs) (float_of_nat imgs) in
  let '(saves, p5) := save_steps (div A (wt tbl "save") per_image) imgs p4 in
  if pp then
    ([p; p1; p2; p3; p4] ++ saves ++ [p5],
     add A p5 (div A (wt tbl "postprocess") per_image))
  else ([p; p1; p2; p3; p4] ++ saves, p5).

(** The working directories in turn, the [i]-th yielding [counts !! i]
    images. *)
Fixpoint dirs_steps (tbl : gmap string (num A)) (dirs : nat) (counts : list nat)
    (pp : bool) (p : num A) : list (num A) * num A :=
  match counts with
  | [] => ([], p)
  | imgs :: rest =>
      let '(l1, p1) := dir_steps tbl dirs imgs pp p in
      let '(l2, p2) := dirs_steps tbl dirs rest pp p1 in
      (l1 ++ l2, p2)
  end.

(** The divisions of one working directory were by floats other than
    zero: the one by the number of directories, and, when there was an
    image to save or a post-process to account for, the one by directories
    times images. *)
Definition divides (dirs imgs : nat) (pp : bool) : Prop :=
  eqb A (float_of_nat dirs) (lit A 0) = false
  /\ ((0 < imgs)%nat \/ pp = true ->
      eqb A (mul A (float_of_nat dirs) (float_of_nat imgs)) (lit A 0) = false).

(** [step_percentages] after the [if not has_postprocess:] update. *)
Definition step_table (pp : bool) : gmap string (num A) :=
  if negb pp then <["save" := lit A 50]> step_percentages0
  else step_percentages0.

(** The whole of [stitch]: the two messages of the exploration, the
    working directories, and the value [percentage] ends with. *)
Definition stitch_percentages (pp : bool) (counts : list nat)
    : list (num A) * num A :=
  let p0 := lit A 0 in
  let '(l, q) :=
    dirs_steps (step_table pp) (length counts) counts pp
      (add A p0 (wt (step_table pp) "explore")) in
  ([p0; p0] ++ l, q).

(** The percentages of the status messages of a world. *)
Definition percentages (w : World A) : list (pynum A) := (statuses w).*1.

Lemma percentages_snoc (w w' : World A) p msg :
  statuses w' = (statuses w ++ [(p, msg)])%list ->
  percentages w' = (percentages w ++ [p])%list.
Proof. unfold percentages. intros ->. by rewrite fmap_app. Qed.

Lemma percentages_same (w w' : World A) :
  statuses w' = statuses w -> percentages w' = percentages w.
Proof. unfold percentages. by intros ->. Qed.

Lemma wt_Some tbl key x : tbl !! key = Some x -> wt tbl key = x.
Proof. unfold wt. by intros ->. Qed.

End Percentages.

Arguments divides : clear implicits.

(** Rewrites the percentages of the worlds a run went through, oldest
    first, into those of its first world. *)
Ltac chain_percentages :=
  repeat match goal with
  | H : statuses ?w' = (statuses ?w ++ [_])%list |- _ =>
      apply percentages_snoc in H
  | H : statuses ?w' = statuses ?w |- _ => apply percentages_same in H
  end;
  repeat match goal with
  | H : percentages ?w' = _ |- context [percentages ?w'] => rewrite H
  end.

Section Trace.
Context {A : Arith} (svc : Services).

Lemma save_images_steps tbl n it dir k imgs i p (w : World A) p' w' :
  save_images svc tbl n it dir k imgs i p w = (Ok p', w') ->
  let inc := div A (wt tbl "save") (mul A (float_of_nat n) (float_of_nat k)) in
  percentages w' =
    percentages w ++ (PFloat <$> (save_steps inc (length imgs) p).1)
  /\ p' = (save_steps inc (length imgs) p).2
  /\ (imgs <> [] ->
      eqb A (mul A (float_of_nat n) (float_of_nat k)) (lit A 0) = false).
Proof.
  revert i p w. induction imgs as [|img rest IH]; intros i p w H inc;
    simpl in H.
  - step_ok. simpl. by rewrite app_nil_r.
  - repeat step_ok. apply IH in H as (H & -> & _). fold inc in H.
    match goal with E : tbl !! "save" = Some _ |- _ =>
      apply wt_Some in E; rewrite <- E in * end.
    fold inc in H, Hstep4 |- *. simpl.
    destruct (save_steps inc (length rest) (add A p inc)) as [l q] eqn:E.
    simpl in *. split; [|done].
    chain_percentages. by rewrite <- app_assoc.
Qed.

(** [k] is the number of images some slicing returned. *)
Definition sliced (k : nat) : Prop :=
  exists c pts d imgs d',
    img_slice svc c pts d = (Ok imgs, d') /\ length imgs = k.

(** [n] is the number of working directories some exploration returned. *)
Definition explored (n : nat) : Prop :=
  exists i o d dirs d',
    explorer_run svc i o d = (Ok dirs, d') /\ length dirs = n.

Lemma process_dir_steps det tbl n it dir p (w : World A) p' w' :
  process_dir svc det tbl n it dir p w = (Ok p', w') ->
  exists k v,
    sliced k /\ settings_load svc "run_postprocess" = Ok v
    /\ divides A n k (truthy v)
    /\ percentages w' =
         percentages w ++ (PFloat <$> (dir_steps tbl n k (truthy v) p).1)
    /\ p' = (dir_steps tbl n k (truthy v) p).2.
Proof.
  unfold process_dir. intros H. repeat step_ok.
  match goal with E : img_slice _ _ _ _ = (Ok ?imgs, _) |- _ =>
    exists (length imgs); pose proof E as Hsl; set (sl := imgs) in * end.
  match goal with E : settings_load _ "run_postprocess" = Ok ?v |- _ =>
    exists v; pose proof E as Hpp end.
  split; [by repeat eexists|]. split; [done|].
  repeat match goal with E : tbl !! _ = Some _ |- _ =>
    apply wt_Some in E; rewrite <- E in * end.
  match goal with E : save_images _ _ _ _ _ _ _ _ _ _ = _ |- _ =>
    apply save_images_steps in E as (Hsave & -> & Hsome) end.
  assert ((0 < length sl)%nat ->
          eqb A (mul A (float_of_nat n) (float_of_nat (length sl))) (lit A 0)
          = false) as Hk.
  { intros Hlen. apply Hsome. intros E. rewrite E in Hlen. simpl in Hlen. lia. }
  unfold dir_steps.
  destruct (save_steps _ _ _) as [saves p5] eqn:Esave. simpl in Hsave |- *.
  destruct (truthy _) eqn:Etr.
  - repeat step_ok.
    repeat match goal with E : tbl !! _ = Some _ |- _ =>
      apply wt_Some in E; rewrite <- E in * end.
    split; [by split; [|intros _]|].
    split; [|done]. chain_percentages.
    simpl. rewrite fmap_app. simpl. by rewrite <- !app_assoc.
  - step_ok. split; [split; [done|]; by intros [?|?]; [apply Hk|]|].
    split; [|done]. chain_percentages.
    simpl. by rewrite <- !app_assoc.
Qed.

Lemma process_dirs_steps det tbl n dirs it p (w : World A) p' w' pp :
  (forall v, settings_load svc "run_postprocess" = Ok v -> truthy v = pp) ->
  process_dirs svc det tbl n dirs it p w = (Ok p', w') ->
  exists counts,
    length counts = length dirs
    /\ Forall (fun k => sliced k /\ divides A n k pp) counts
    /\ percentages w' =
         percentages w ++ (PFloat <$> (dirs_steps tbl n counts pp p).1)
    /\ p' = (dirs_steps tbl n counts pp p).2.
Proof.
  intros Hpp. revert it p w p'.
  induction dirs as [|dir rest IH]; intros it p w p' H; simpl in H.
  - step_ok. exists []. simpl. by rewrite app_nil_r.
  - step_ok.
    apply process_dir_steps in Hstep as (k & v & Hk & Hv & Hdiv & Hw & ->).
    apply IH in H as (counts & Hlen & Hall & Hw' & ->).
    apply Hpp in Hv. rewrite Hv in *. clear Hv.
    exists (k :: counts). simpl. rewrite Hlen.
    destruct (dir_steps tbl n k pp p) as [l1 p1] eqn:E1. simpl in *.
    destruct (dirs_steps tbl n counts pp p1) as [l2 p2] eqn:E2. simpl in *.
    split; [done|]. split; [by constructor|]. split; [|done].
    by rewrite Hw', Hw, fmap_app, <- app_assoc.
Qed.

Lemma stitch_steps kwargs (w : World A) p w' :
  stitch svc kwargs w = (Ok p, w') ->
  exists v counts,
    settings_load svc "run_postprocess" = Ok v
    /\ explored (length counts)
    /\ Forall (fun k => sliced k /\ divides A (length counts) k (truthy v))
         counts
    /\ percentages w' =
         percentages w ++ (PFloat <$> (stitch_percentages (truthy v) counts).1)
    /\ p = (stitch_percentages (truthy v) counts).2.
Proof.
  unfold stitch. intros H.
  apply bind_Ok in H as (dt & w1 & H1 & H). apply load_Ok in H1 as [S1 _].
  apply bind_Ok in H as (det & w2 & H2 & H). apply call_Ok in H2 as [S2 _].
  apply bind_Ok in H as (v & w3 & H3 & H). apply load_Ok in H3 as [S3 Hv].
  cbv beta zeta in H.
  apply bind_Ok in H as (u & w4 & H4 & H). apply status_Ok in H4.
  apply bind_Ok in H as (dirs & w5 & H5 & H).
  assert (statuses w5 = statuses w4
          /\ exists i o d d', explorer_run svc i o d = (Ok dirs, d'))
    as [S5 (i & o & d & d' & Hex)].
  { destruct (truthy (kw_get kwargs "use_waifu2x" (VBool false)));
      repeat step_ok; eauto 10. }
  clear H5. cbv beta zeta in H.
  apply bind_Ok in H as (u' & w6 & H6 & H). apply status_Ok in H6.
  apply bind_Ok in H as (x & w7 & H7 & H).
  apply weight_Ok in H7 as [-> Hx]. apply wt_Some in Hx. subst x.
  eapply process_dirs_steps in H as (counts & Hlen & Hall & Hw' & ->).
  2:{ intros v' Hv'. rewrite Hv in Hv'. by inversion Hv'. }
  exists v, counts. split; [done|]. split.
  { exists i, o, d, dirs, d'. by rewrite Hlen. }
  split; [by rewrite Hlen|].
  unfold stitch_percentages, step_table. rewrite Hlen.
  destruct (dirs_steps _ _ _ _ _) as [l q] eqn:E. simpl in *.
  split; [|done]. chain_percentages. by rewrite <- !app_assoc.
Qed.

End Trace.

(** ** Percentages never drop while the directories are processed *)

(** What the argument needs of the float arithmetic.  All five hold of
    exact rationals ([exact_laws] below).  Of binary64 they are the sign
    rules of IEEE 754 and the monotonicity of rounding to nearest; they are
    worded so as to hold there too: [x < y] is false as soon as a NaN is
    involved, and the quotient is constrained only for a divisor other than
    zero, [-0.0] being a zero that would give a negative infinity. *)
Record ArithLaws (A : Arith) : Prop := {
  ltb_irrefl : forall x, ltb A x x = false;
  lit_nonneg : forall z, 0 <= z -> ltb A (lit A z) (lit A 0) = false;
  mul_nonneg : forall x y,
    ltb A x (lit A 0) = false -> ltb A y (lit A 0) = false ->
    ltb A (mul A x y) (lit A 0) = false;
  div_nonneg : forall x y,
    ltb A x (lit A 0) = false -> ltb A y (lit A 0) = false ->
    eqb A y (lit A 0) = false ->
    ltb A (div A x y) (lit A 0) = false;
  add_nonneg : forall x i,
    ltb A i (lit A 0) = false -> ltb A (add A x i) x = false
}.

Section Rising.
Context {A : Arith} (laws : ArithLaws A).

(** No element is below the one before it. *)
Inductive rising : list (num A) -> Prop :=
  | rising_nil : rising []
  | rising_one a : rising [a]
  | rising_cons a b l :
      ltb A b a = false -> rising (b :: l) -> rising (a :: b :: l).

(** Starting from the value [p], the percentages [l] are emitted and the
    value [q] is reached: the first one emitted is [p] itself, none is below
    the one before it, and [q] is not below the last. *)
Definition climbs (p : num A) (l : list (num A)) (q : num A) : Prop :=
  rising l
  /\ match l with
     | [] => q = p
     | a :: _ => a = p /\ exists z, last l = Some z /\ ltb A q z = false
     end.

Lemma rising_app l1 l2 :
  rising l1 -> rising l2 ->
  (forall a b, last l1 = Some a -> head l2 = Some b -> ltb A b a = false) ->
  rising (l1 ++ l2).
Proof.
  induction 1 as [|a|a b l Hab Hr IH]; intros H2 Hb; simpl.
  - done.
  - destruct l2 as [|c l2]; [constructor|].
    constructor; [|done]. by apply Hb.
  - constructor; [done|]. apply IH; [done|].
    intros x y Hx Hy. apply Hb; [|done]. by rewrite last_cons_cons.
Qed.

Lemma climbs_app p l1 q1 l2 q2 :
  climbs p l1 q1 -> climbs q1 l2 q2 -> climbs p (l1 ++ l2) q2.
Proof.
  intros [R1 H1] [R2 H2]. destruct l1 as [|a l1].
  - subst. simpl. by split.
  - destruct H1 as [-> (z1 & Hz1 & H1)]. destruct l2 as [|b l2].
    + subst. rewrite app_nil_r. split; [done|]. eauto.
    + destruct H2 as [-> (z2 & Hz2 & H2)]. split.
      * apply rising_app; [done..|].
        intros a b Ha Hb. simpl in Hb. inversion Hb; subst.
        rewrite Hz1 in Ha. by inversion Ha; subst.
      * split; [done|]. exists z2. split; [|done].
        change ((p :: l1) ++ q1 :: l2) with ((p :: l1) ++ (q1 :: l2)).
        by rewrite last_app, Hz2.
Qed.

Lemma save_steps_climbs inc k p :
  ((0 < k)%nat -> ltb A inc (lit A 0) = false) ->
  rising (p :: (save_steps inc k p).1)
  /\ last (p :: (save_steps inc k p).1) = Some (save_steps inc k p).2.
Proof.
  intros Hinc. revert p. induction k as [|k IH]; intros p; simpl.
  - split; [constructor|done].
  - assert (ltb A inc (lit A 0) = false) as Hinc' by (apply Hinc; lia).
    specialize (IH (fun _ => Hinc') (add A p inc)).
    destruct (save_steps inc k (add A p inc)) as [l q].
    simpl in *. destruct IH as [IH1 IH2]. split.
    + constructor; [|done]. by apply add_nonneg.
    + first [done | by rewrite last_cons_cons].
Qed.

Lemma rising_lookup l i a b :
  rising l -> l !! i = Some a -> l !! S i = Some b -> ltb A b a = false.
Proof.
  intros H. revert i. induction H as [|x|x y l Hxy Hr IH]; intros i Ha Hb.
  - done.
  - destruct i; done.
  - destruct i as [|i]; simpl in *.
    + by inversion Ha; inversion Hb; subst.
    + by apply (IH i).
Qed.

Lemma float_of_nat_nonneg n : ltb A (float_of_nat n) (lit A 0) = false.
Proof. apply lit_nonneg; [done|lia]. Qed.

Section Table.
Variable tbl : gmap string (num A).
Hypothesis weights_nonneg : forall key, ltb A (wt tbl key) (lit A 0) = false.

Lemma dir_steps_climbs n k pp p :
  divides A n k pp ->
  climbs p (dir_steps tbl n k pp p).1 (dir_steps tbl n k pp p).2.
Proof.
  intros [Hn Hnk]. unfold dir_steps.
  set (p1 := add A p _). set (p2 := add A p1 _). set (p3 := add A p2 _).
  set (p4 := add A p3 _). set (inc := div A (wt tbl "save") _).
  assert (forall key, (0 < k)%nat \/ pp = true ->
            ltb A (div A (wt tbl key)
                     (mul A (float_of_nat n) (float_of_nat k))) (lit A 0)
            = false) as Hper.
  { intros key Hor. apply div_nonneg; [done..| |by apply Hnk].
    apply mul_nonneg; [done|apply float_of_nat_nonneg..]. }
  destruct (save_steps_climbs inc k p4 (fun H => Hper "save" (or_introl H)))
    as [Hr Hl].
  destruct (save_steps inc k p4) as [saves p5]. simpl in Hr, Hl.
  assert (forall x key, ltb A (add A x (div A (wt tbl key) (float_of_nat n))) x
                        = false) as Hstep.
  { intros x key. apply add_nonneg; [done|].
    apply div_nonneg; [done..|apply float_of_nat_nonneg|done]. }
  destruct pp; simpl.
  - split.
    + do 4 (constructor; [apply Hstep|]).
      change (p4 :: saves ++ [p5]) with ((p4 :: saves) ++ [p5]).
      apply rising_app; [done|constructor|].
      intros a b Ha Hb. rewrite Hl in Ha. inversion Ha; inversion Hb; subst.
      by apply ltb_irrefl.
    + split; [done|]. exists p5. split.
      * change (p :: p1 :: p2 :: p3 :: p4 :: saves ++ [p5])
          with ([p; p1; p2; p3; p4] ++ saves ++ [p5]).
        by rewrite !last_app.
      * apply add_nonneg; [done|]. apply Hper. by right.
  - split.
    + by do 4 (constructor; [apply Hstep|]).
    + split; [done|]. exists p5. split; [|by apply ltb_irrefl].
      change (p :: p1 :: p2 :: p3 :: p4 :: saves)
        with ([p; p1; p2; p3] ++ (p4 :: saves)).
      by rewrite last_app, Hl.
Qed.

Lemma dirs_steps_climbs n counts pp p :
  Forall (fun k => divides A n k pp) counts ->
  climbs p (dirs_steps tbl n counts pp p).1 (dirs_steps tbl n counts pp p).2.
Proof.
  intros Hall. revert p.
  induction Hall as [|k rest Hk _ IH]; intros p; simpl.
  - split; [constructor|done].
  - pose proof (dir_steps_climbs n k pp p Hk) as H1.
    destruct (dir_steps tbl n k pp p) as [l1 p1]. simpl in H1.
    specialize (IH p1).
    destruct (dirs_steps tbl n rest pp p1) as [l2 p2]. simpl in *.
    by eapply climbs_app.
Qed.

End Table.

Lemma step_table_nonneg pp key :
  ltb A (wt (step_table pp) key) (lit A 0) = false.
Proof.
  assert (map_Forall (fun _ x => ltb A x (lit A 0) = false) (step_table pp))
    as H.
  { unfold step_table, step_percentages0.
    destruct pp; simpl;
      repeat (apply map_Forall_insert_2; [by apply lit_nonneg|]);
      apply map_Forall_empty. }
  unfold wt. destruct (step_table pp !! key) as [x|] eqn:E; simpl.
  - by apply (H key).
  - by apply lit_nonneg.
Qed.

Lemma stitch_percentages_rising pp counts :
  Forall (fun k => divides A (length counts) k pp) counts ->
  rising (stitch_percentages pp counts).1.
Proof.
  intros Hall. unfold stitch_percentages.
  pose proof (dirs_steps_climbs (step_table pp) (step_table_nonneg pp)
                (length counts) counts pp
                (add A (lit A 0) (wt (step_table pp) "explore")) Hall)
    as [Hr Hc].
  destruct (dirs_steps _ _ _ _ _) as [l q]. simpl in *.
  constructor; [by apply ltb_irrefl|].
  destruct l as [|a l]; [constructor|].
  destruct Hc as [-> _]. constructor; [|done].
  apply add_nonneg; [done|]. apply step_table_nonneg.
Qed.

End Rising.

Lemma exact_laws : ArithLaws exact.
Proof.
  assert (forall a b : Q, negb (Qle_bool b a) = false <-> (b <= a)%Q) as E.
  { intros a b. rewrite negb_false_iff. apply Qle_bool_iff. }
  split; simpl; intros.
  - apply E. lra.
  - apply E. change 0%Q with (inject_Z 0). by rewrite <- Zle_Qle.
  - apply E. apply E in H, H0. by apply Qmult_le_0_compat.
  - apply E. apply E in H, H0. unfold Qdiv.
    apply Qmult_le_0_compat; [done|]. by apply Qinv_le_0_compat.
  - apply E. apply E in H. change (inject_Z 0) with 0%Q in H. lra.
Qed.

(** ** The laws on binary64

    CPython's floats obey the five laws too.  The primitive operations are
    specified by the Standard Library's [SpecFloat]: an operation rounds the
    exact result to the nearest float of 53 digits; what follows reads the
    laws off that rounding, on the integer mantissas. *)

Section Binary64.
Local Open Scope Z_scope.

(** The number of binary digits of a mantissa. *)
Definition digits (m : positive) : Z := Zpos (digits2_pos m).

Lemma fexp_spec x : fexp prec emax x = Z.max (x - 53) (-1074).
Proof. reflexivity. Qed.

Lemma digits_bounds m : 2 ^ (digits m - 1) <= Zpos m < 2 ^ digits m.
Proof.
  unfold digits. induction m as [m IH|m IH|]; simpl digits2_pos.
  - rewrite Pos2Z.inj_succ. change (Zpos m~1) with (2 * Zpos m + 1).
    replace (Z.succ (Zpos (digits2_pos m)) - 1)
      with (Z.succ (Zpos (digits2_pos m) - 1)) by lia.
    rewrite !Z.pow_succ_r by lia.
    destruct IH as [IH1 IH2]. revert IH1 IH2.
    generalize (2 ^ (Zpos (digits2_pos m) - 1)) (2 ^ (Zpos (digits2_pos m))).
    intros a b. lia.
  - rewrite Pos2Z.inj_succ. change (Zpos m~0) with (2 * Zpos m).
    replace (Z.succ (Zpos (digits2_pos m)) - 1)
      with (Z.succ (Zpos (digits2_pos m) - 1)) by lia.
    rewrite !Z.pow_succ_r by lia.
    destruct IH as [IH1 IH2]. revert IH1 IH2.
    generalize (2 ^ (Zpos (digits2_pos m) - 1)) (2 ^ (Zpos (digits2_pos m))).
    intros a b. lia.
  - simpl. lia.
Qed.

Lemma digits_pos m : 1 <= digits m.
Proof. unfold digits. lia. Qed.

Lemma digits_le m k : 0 <= k -> Zpos m < 2 ^ k -> digits m <= k.
Proof.
  intros Hk Hm. pose proof (digits_bounds m) as [Hl _].
  pose proof (digits_pos m).
  assert (2 ^ (digits m - 1) < 2 ^ k) as Hlt by lia.
  apply Z.pow_lt_mono_r_iff in Hlt; lia.
Qed.

Lemma digits_gt m k : 2 ^ k <= Zpos m -> k < digits m.
Proof.
  intros Hm. pose proof (digits_bounds m) as [_ Hu].
  pose proof (digits_pos m).
  destruct (Z.lt_ge_cases k 0) as [|Hk]; [lia|].
  assert (2 ^ k < 2 ^ digits m) as Hlt by lia.
  apply Z.pow_lt_mono_r_iff in Hlt; lia.
Qed.

Lemma pow2_pos k : 0 <= k -> 0 < 2 ^ k.
Proof. intros. apply Z.pow_pos_nonneg; lia. Qed.

Lemma shr_record_of_loc_m m l : shr_m (shr_record_of_loc m l) = m.
Proof. by destruct l as [|[]]. Qed.

Lemma shr_1_m r : 0 <= shr_m r -> shr_m (shr_1 r) = shr_m r / 2.
Proof.
  destruct r as [m r s]. simpl. intros Hm.
  destruct m as [|[p|p|]|]; simpl shr_m; try lia.
  - reflexivity.
  - apply (Z.div_unique _ 2 _ 1); lia.
  - apply (Z.div_unique _ 2 _ 0); lia.
  - reflexivity.
Qed.

Lemma iter_pos_shr_1 n r :
  0 <= shr_m r -> shr_m (SpecFloat.iter_pos shr_1 n r) = shr_m r / 2 ^ Zpos n.
Proof.
  revert r. induction n as [n IH|n IH|]; intros r Hr; simpl SpecFloat.iter_pos.
  - assert (0 <= shr_m (shr_1 r)) as H1.
    { rewrite shr_1_m by done. apply Z.div_pos; lia. }
    assert (0 <= shr_m (SpecFloat.iter_pos shr_1 n (shr_1 r))) as H2.
    { rewrite IH by done. apply Z.div_pos; [done|]. apply pow2_pos; lia. }
    rewrite IH, IH, shr_1_m by done.
    pose proof (pow2_pos (Zpos n) ltac:(lia)).
    rewrite !Z.div_div by lia. f_equal.
    replace (Zpos n~1) with (Z.succ (Zpos n + Zpos n)) by lia.
    rewrite Z.pow_succ_r, Z.pow_add_r by lia. lia.
  - assert (0 <= shr_m (SpecFloat.iter_pos shr_1 n r)) as H2.
    { rewrite IH by done. apply Z.div_pos; [done|]. apply pow2_pos; lia. }
    rewrite IH, IH by done.
    pose proof (pow2_pos (Zpos n) ltac:(lia)).
    rewrite !Z.div_div by lia. f_equal.
    replace (Zpos n~0) with (Zpos n + Zpos n) by lia.
    rewrite Z.pow_add_r by lia. lia.
  - rewrite shr_1_m by done. reflexivity.
Qed.

Lemma round_nearest_even_bounds q l :
  q <= round_nearest_even q l <= q + 1.
Proof. destruct l as [|[]]; simpl; try destruct (Z.even q); lia. Qed.

(** One shift to the exponent the format asks for. *)
Lemma shr_fexp_spec m e l :
  0 <= m ->
  let r := shr_fexp prec emax m e l in
  r.2 = Z.max (fexp prec emax (Zdigits2 m + e)) e
  /\ shr_m r.1 = m / 2 ^ (r.2 - e).
Proof.
  intros Hm. unfold shr_fexp, shr.
  destruct (fexp prec emax (Zdigits2 m + e) - e) as [|n|n] eqn:E; simpl.
  - split; [lia|]. rewrite Z.sub_diag, shr_record_of_loc_m. simpl.
    by rewrite Z.div_1_r.
  - split; [lia|]. rewrite iter_pos_shr_1, shr_record_of_loc_m.
    + f_equal. f_equal. lia.
    + rewrite shr_record_of_loc_m. lia.
  - split; [lia|]. rewrite Z.sub_diag, shr_record_of_loc_m. simpl.
    by rewrite Z.div_1_r.
Qed.


(** What rounding a mantissa returns: the mantissa is divided down to the
    exponent of the format, moved up by at most one, and divided once more
    where that carried into another digit. *)
Lemma binary_round_aux_spec sx m e l :
  0 <= m ->
  exists e' m1 e'',
    e' = Z.max (fexp prec emax (Zdigits2 m + e)) e
    /\ m / 2 ^ (e' - e) <= m1 <= m / 2 ^ (e' - e) + 1
    /\ e'' = Z.max (fexp prec emax (Zdigits2 m1 + e')) e'
    /\ binary_round_aux prec emax sx m e l =
       match m1 / 2 ^ (e'' - e') with
       | Z0 => S754_zero sx
       | Zpos p =>
           if e'' <=? emax - prec then S754_finite sx p e''
           else S754_infinity sx
       | Zneg _ => S754_nan
       end.
Proof.
  intros Hm. unfold binary_round_aux.
  pose proof (shr_fexp_spec m e l Hm) as [He' Hq].
  destruct (shr_fexp prec emax m e l) as [mrs' e']. simpl in He', Hq.
  set (m1 := round_nearest_even (shr_m mrs') (loc_of_shr_record mrs')).
  pose proof (round_nearest_even_bounds (shr_m mrs')
                (loc_of_shr_record mrs')) as Hm1.
  fold m1 in Hm1. rewrite Hq in Hm1.
  assert (0 <= m1) as Hm1'.
  { assert (0 <= m / 2 ^ (e' - e)); [|lia].
    apply Z.div_pos; [done|]. apply pow2_pos. lia. }
  pose proof (shr_fexp_spec m1 e' loc_Exact Hm1') as [He'' Hq'].
  destruct (shr_fexp prec emax m1 e' loc_Exact) as [mrs'' e''].
  simpl in He'', Hq'.
  exists e', m1, e''. rewrite Hq'. done.
Qed.

(** A mantissa is never shifted out entirely. *)
Lemma shift_pos m e :
  -1074 <= e ->
  0 < Zpos m / 2 ^ (Z.max (fexp prec emax (digits m + e)) e - e).
Proof.
  intros He. rewrite fexp_spec.
  pose proof (digits_bounds m) as [Hl _]. pose proof (digits_pos m).
  apply Z.div_str_pos. split; [apply pow2_pos; lia|].
  etransitivity; [|exact Hl]. apply Z.pow_le_mono_r; lia.
Qed.

Lemma SFltb_finite_pos p e q ex :
  ex < e \/ (e = ex /\ Zpos q <= Zpos p) ->
  SFltb (S754_finite false p e) (S754_finite false q ex) = false.
Proof.
  intros H. unfold SFltb, SFcompare.
  destruct (Z.compare_spec e ex) as [Heq|Hlt|Hgt]; [|lia|done].
  change (Pos.compare_cont Eq p q) with (p ?= q)%positive.
  destruct (Pos.compare_spec p q) as [| |]; [done| |done]. lia.
Qed.

Lemma SFltb_finite_neg p e q ex :
  e < ex \/ (e = ex /\ Zpos p <= Zpos q) ->
  SFltb (S754_finite true p e) (S754_finite true q ex) = false.
Proof.
  intros H. unfold SFltb, SFcompare.
  destruct (Z.compare_spec e ex) as [Heq|Hlt|Hgt]; [|done|lia].
  change (Pos.compare_cont Eq p q) with (p ?= q)%positive.
  destruct (Pos.compare_spec p q) as [| |]; [done|done|]. simpl. lia.
Qed.


(** Rounding does not go below a representable number that the rounded
    number is not below. *)
Lemma round_ge m mx e ex l :
  -1074 <= e <= ex ->
  fexp prec emax (digits mx + ex) = ex ->
  Zpos mx * 2 ^ (ex - e) <= Zpos m ->
  SFltb (binary_round_aux prec emax false (Zpos m) e l)
        (S754_finite false mx ex) = false.
Proof.
  intros [He Hex] Hc Hm.
  destruct (binary_round_aux_spec false (Zpos m) e l)
    as (e' & m1 & e'' & He' & Hm1 & He'' & ->); [lia|].
  change (Zdigits2 (Zpos m)) with (digits m) in He'.
  pose proof (shift_pos m e He) as Hq. rewrite <- He' in Hq.
  assert (digits mx + ex <= digits m + e) as Hd.
  { pose proof (digits_bounds mx) as [Hl _]. pose proof (digits_pos mx).
    assert (2 ^ (digits mx - 1 + (ex - e)) <= Zpos m) as Hp.
    { rewrite Z.pow_add_r by lia. etransitivity; [|exact Hm].
      apply Z.mul_le_mono_nonneg_r; [|done].
      apply Z.lt_le_incl, pow2_pos. lia. }
    apply digits_gt in Hp. lia. }
  assert (ex <= e') as Hee by (rewrite fexp_spec in *; lia).
  destruct m1 as [|p1|p1]; [lia| |lia].
  change (Zdigits2 (Zpos p1)) with (digits p1) in He''.
  pose proof (shift_pos p1 e' ltac:(lia)) as Hp. rewrite <- He'' in Hp.
  destruct (Zpos p1 / 2 ^ (e'' - e')) as [|p|p] eqn:Ep; [lia| |lia].
  destruct (e'' <=? emax - prec); [|reflexivity].
  apply SFltb_finite_pos.
  destruct (Z.eq_dec e'' ex) as [Heq|Hne]; [right|left; lia].
  split; [done|].
  assert (e'' - e' = 0) as E0 by lia. rewrite E0, Z.pow_0_r, Z.div_1_r in Ep.
  assert (Zpos mx <= Zpos m / 2 ^ (e' - e)) as Hlow.
  { apply Z.div_le_lower_bound; [apply pow2_pos; lia|].
    replace (e' - e) with (ex - e) by lia. lia. }
  lia.
Qed.

(** Nor, on the negative side, above one that the rounded number is
    below. *)
Lemma round_le m mx e ex l :
  -1074 <= e <= ex ->
  fexp prec emax (digits mx + ex) = ex ->
  ex <= 971 ->
  Zpos m < Zpos mx * 2 ^ (ex - e) ->
  SFltb (binary_round_aux prec emax true (Zpos m) e l)
        (S754_finite true mx ex) = false.
Proof.
  intros [He Hex] Hc Hmax Hm.
  destruct (binary_round_aux_spec true (Zpos m) e l)
    as (e' & m1 & e'' & He' & Hm1 & He'' & ->); [lia|].
  change (Zdigits2 (Zpos m)) with (digits m) in He'.
  pose proof (shift_pos m e He) as Hq. rewrite <- He' in Hq.
  pose proof (digits_bounds mx) as [Hxl Hxu]. pose proof (digits_pos mx).
  pose proof (digits_bounds m) as [Hml Hmu]. pose proof (digits_pos m).
  assert (2 ^ 53 = 9007199254740992) as P53 by reflexivity.
  assert (2 ^ 52 = 4503599627370496) as P52 by reflexivity.
  assert (digits mx <= 53) as Hdx by (rewrite fexp_spec in Hc; lia).
  assert (Zpos mx < 2 ^ 53) as Hx53.
  { eapply Z.lt_le_trans; [exact Hxu|]. apply Z.pow_le_mono_r; lia. }
  assert (digits m + e <= digits mx + ex) as Hd.
  { assert (digits m <= digits mx + (ex - e)); [|lia].
    apply digits_le; [lia|]. rewrite Z.pow_add_r by lia.
    eapply Z.lt_le_trans; [exact Hm|].
    apply Z.mul_le_mono_nonneg_r; [apply Z.lt_le_incl, pow2_pos|]; lia. }
  assert (e' <= ex) as Hee by (rewrite fexp_spec in *; lia).
  assert (Zpos m / 2 ^ (e' - e) < 2 ^ 53) as Hq53.
  { apply Z.div_lt_upper_bound; [apply pow2_pos; lia|].
    rewrite <- Z.pow_add_r by lia.
    eapply Z.lt_le_trans; [exact Hmu|].
    apply Z.pow_le_mono_r; [lia|]. rewrite fexp_spec in He'. lia. }
  assert (e' = ex -> m1 <= Zpos mx) as Hlast.
  { intros ->. assert (Zpos m / 2 ^ (ex - e) < Zpos mx); [|lia].
    apply Z.div_lt_upper_bound; [apply pow2_pos; lia|]. lia. }
  destruct m1 as [|p1|p1]; [lia| |lia].
  change (Zdigits2 (Zpos p1)) with (digits p1) in He''.
  pose proof (digits_bounds p1) as [Hpl Hpu]. pose proof (digits_pos p1).
  assert (digits p1 <= 54) as Hd1.
  { apply digits_le; [lia|]. change (2 ^ 54) with (2 * 2 ^ 53). lia. }
  rewrite fexp_spec in He''.
  assert (e' = ex -> digits p1 <= 53) as Hd53.
  { intros Heq. specialize (Hlast Heq). apply digits_le; lia. }
  assert ((e'' <=? emax - prec) = true) as Hfin.
  { apply Z.leb_le. change (emax - prec) with 971.
    destruct (Z.eq_dec e' ex) as [Heq|Hne]; [|lia].
    specialize (Hd53 Heq). lia. }
  rewrite Hfin.
  destruct (Zpos p1 / 2 ^ (e'' - e')) as [|p|p] eqn:Ediv; [done| |done].
  apply SFltb_finite_neg.
  destruct (Z.eq_dec e'' e') as [E|E].
  - rewrite E, Z.sub_diag, Z.pow_0_r, Z.div_1_r in Ediv.
    destruct (Z.eq_dec e' ex) as [Heq|Hne]; [right|left; lia].
    specialize (Hlast Heq). lia.
  - assert (e'' = e' + 1) as E1 by lia.
    assert (digits p1 = 54) as E54 by lia.
    rewrite E54 in Hpl. replace (54 - 1) with 53 in Hpl by done.
    assert (e' < ex) as Hlt.
    { destruct (Z.eq_dec e' ex) as [Heq|Hne]; [|lia].
      specialize (Hd53 Heq). lia. }
    replace (e'' - e') with 1 in Ediv by lia.
    rewrite Z.pow_1_r in Ediv.
    assert (Zpos p <= 2 ^ 52) as Hp52.
    { rewrite <- Ediv. apply Z.div_le_upper_bound; lia. }
    destruct (Z.eq_dec e'' ex) as [Heq|Hne]; [right|left; lia].
    split; [done|].
    assert (digits mx = 53) as E53 by (rewrite fexp_spec in Hc; lia).
    rewrite E53 in Hxl. replace (53 - 1) with 52 in Hxl by done. lia.
Qed.

(** Aligning a mantissa to a lower exponent keeps the number. *)
Lemma iter_xO m d : Zpos (Pos.iter xO m d) = Zpos m * 2 ^ Zpos d.
Proof.
  induction d as [|d IH] using Pos.peano_ind.
  - simpl. lia.
  - rewrite Pos.iter_succ, Pos2Z.inj_succ, Z.pow_succ_r by lia.
    change (Zpos (Pos.iter xO m d)~0) with (2 * Zpos (Pos.iter xO m d)).
    rewrite IH. lia.
Qed.

Lemma shl_align_spec m e e' :
  let r := shl_align m e e' in
  r.2 = Z.min e e' /\ Zpos r.1 = Zpos m * 2 ^ (e - r.2).
Proof.
  unfold shl_align. destruct (e' - e) as [|d|d] eqn:E; simpl.
  - split; [lia|]. rewrite Z.sub_diag. simpl. lia.
  - split; [lia|]. rewrite Z.sub_diag. simpl. lia.
  - split; [lia|]. rewrite iter_xO. f_equal. f_equal. lia.
Qed.

(** A finite float as the format holds it. *)
Lemma bounded_spec m e :
  bounded prec emax m e = true ->
  fexp prec emax (digits m + e) = e /\ -1074 <= e <= 971.
Proof.
  unfold bounded, canonical_mantissa. intros H.
  apply andb_true_iff in H as [Hc He].
  apply Z.eqb_eq in Hc. apply Z.leb_le in He. fold (digits m) in Hc.
  split; [done|]. change (emax - prec) with 971 in He.
  rewrite fexp_spec in Hc. lia.
Qed.

(** The sign of a float: below zero. *)
Definition is_neg (x : spec_float) : bool :=
  match x with
  | S754_infinity true | S754_finite true _ _ => true
  | _ => false
  end.

Lemma SFltb_zero x : SFltb x (S754_zero false) = is_neg x.
Proof. by destruct x as [[]|[]| |[] m e]. Qed.

Lemma binary_round_aux_neg m e l :
  is_neg (binary_round_aux prec emax false m e l) = false.
Proof.
  unfold binary_round_aux.
  destruct (shr_fexp prec emax m e l) as [mrs' e'].
  destruct (shr_fexp prec emax _ e' loc_Exact) as [mrs'' e''].
  destruct (shr_m mrs''); [done| |done]. by destruct (e'' <=? emax - prec).
Qed.

Lemma binary_round_neg m e :
  is_neg (binary_round prec emax false m e) = false.
Proof.
  unfold binary_round. destruct (shl_align _ _ _) as [mz ez].
  apply binary_round_aux_neg.
Qed.

Lemma SFltb_not_neg x m e :
  is_neg x = false -> SFltb x (S754_finite true m e) = false.
Proof. by destruct x as [[]|[]| |[] m' e']. Qed.

Lemma SFltb_irrefl x : SFltb x x = false.
Proof.
  destruct x as [[]|[]| |[] m e]; try done.
  - apply SFltb_finite_neg. right. split; [done|lia].
  - apply SFltb_finite_pos. right. split; [done|lia].
Qed.

(** Adding a float that is not below zero to a finite one does not give a
    float below it. *)
Lemma SFadd_finite sx mx ex mi ei :
  bounded prec emax mx ex = true ->
  bounded prec emax mi ei = true ->
  SFltb (SFadd prec emax (S754_finite sx mx ex) (S754_finite false mi ei))
        (S754_finite sx mx ex) = false.
Proof.
  intros Hx Hi. apply bounded_spec in Hx as [Hcx Hex].
  apply bounded_spec in Hi as [Hci Hei].
  unfold SFadd. set (ez := Z.min ex ei).
  pose proof (shl_align_spec mx ex ez) as [Ex Hmx].
  pose proof (shl_align_spec mi ei ez) as [Ei Hmi].
  destruct (shl_align mx ex ez) as [mx' ex'].
  destruct (shl_align mi ei ez) as [mi' ei'].
  simpl in Ex, Hmx, Ei, Hmi. simpl fst.
  assert (ex' = ez) as -> by lia. assert (ei' = ez) as -> by lia.
  assert (0 < 2 ^ (ex - ez)) as Hpx by (apply pow2_pos; lia).
  unfold binary_normalize. destruct sx; simpl cond_Zopp.
  - destruct (- Zpos mx' + Zpos mi') as [|s|s] eqn:Es.
    + done.
    + apply SFltb_not_neg, binary_round_neg.
    + unfold binary_round.
      pose proof (shl_align_spec s ez
                    (fexp prec emax (Zpos (digits2_pos s) + ez))) as [E1 Hmz].
      destruct (shl_align s ez _) as [mz e1]. simpl in E1, Hmz.
      assert (-1074 <= e1) as He1 by (rewrite fexp_spec in E1; lia).
      assert (0 < 2 ^ (ez - e1)) as Hpz by (apply pow2_pos; lia).
      apply round_le; [lia|done|lia|].
      rewrite Hmz. replace (ex - e1) with ((ex - ez) + (ez - e1)) by lia.
      rewrite Z.pow_add_r, Z.mul_assoc by lia.
      apply Z.mul_lt_mono_pos_r; [done|]. lia.
  - change (Zpos mx' + Zpos mi') with (Zpos (mx' + mi')).
    unfold binary_round.
    pose proof (shl_align_spec (mx' + mi') ez
                  (fexp prec emax (Zpos (digits2_pos (mx' + mi')) + ez)))
      as [E1 Hmz].
    destruct (shl_align (mx' + mi') ez _) as [mz e1]. simpl in E1, Hmz.
    assert (-1074 <= e1) as He1 by (rewrite fexp_spec in E1; lia).
    assert (0 < 2 ^ (ez - e1)) as Hpz by (apply pow2_pos; lia).
    apply round_ge; [lia|done|].
    rewrite Hmz. replace (ex - e1) with ((ex - ez) + (ez - e1)) by lia.
    rewrite Z.pow_add_r, Z.mul_assoc by lia.
    apply Z.mul_le_mono_nonneg_r; lia.
Qed.

Lemma SFadd_nonneg x i :
  valid_binary x = true -> valid_binary i = true ->
  is_neg i = false ->
  SFltb (SFadd prec emax x i) x = false.
Proof.
  intros Hx Hi Hn.
  destruct x as [sx|sx| |sx mx ex], i as [si|si| |si mi ei];
    try discriminate Hn; try done;
    try (destruct si; try discriminate Hn);
    try (by destruct sx);
    try apply SFltb_irrefl.
  by apply SFadd_finite.
Qed.

Lemma SFadd_neg x y :
  is_neg x = false -> is_neg y = false ->
  is_neg (SFadd prec emax x y) = false.
Proof.
  destruct x as [[]|[]| |[] mx ex], y as [[]|[]| |[] my ey]; try done.
  intros _ _. unfold SFadd, binary_normalize. simpl cond_Zopp.
  match goal with |- context [Zpos ?a + Zpos ?b] =>
    change (Zpos a + Zpos b) with (Zpos (a + b)) end.
  apply binary_round_neg.
Qed.

Lemma SFmul_neg x y :
  is_neg x = false -> is_neg y = false ->
  is_neg (SFmul prec emax x y) = false.
Proof.
  destruct x as [[]|[]| |[] mx ex], y as [[]|[]| |[] my ey]; try done.
  intros _ _. apply binary_round_aux_neg.
Qed.

Lemma SFdiv_neg x y :
  is_neg x = false -> is_neg y = false ->
  SFeqb y (S754_zero false) = false ->
  is_neg (SFdiv prec emax x y) = false.
Proof.
  destruct x as [[]|[]| |[] mx ex], y as [[]|[]| |[] my ey]; try done.
  intros _ _ _. unfold SFdiv.
  destruct (SFdiv_core_binary _ _ _ _ _ _) as [[mz ez] lz].
  apply binary_round_aux_neg.
Qed.

(** The same on primitive floats. *)
Lemma ltb_zero x : (x <? 0)%float = is_neg (Prim2SF x).
Proof. rewrite FloatAxioms.ltb_spec. apply SFltb_zero. Qed.

Lemma float_of_pos_nonneg p : (float_of_pos p <? 0)%float = false.
Proof.
  rewrite ltb_zero. induction p as [p IH|p IH|]; simpl float_of_pos.
  - rewrite FloatAxioms.add_spec. apply SFadd_neg; [|done].
    rewrite FloatAxioms.mul_spec. by apply SFmul_neg.
  - rewrite FloatAxioms.mul_spec. by apply SFmul_neg.
  - done.
Qed.

End Binary64.

Lemma binary64_laws : ArithLaws binary64.
Proof.
  split; simpl.
  - intros x. rewrite FloatAxioms.ltb_spec. apply SFltb_irrefl.
  - intros [|p|p] Hz; [done|apply float_of_pos_nonneg|lia].
  - intros x y. rewrite !ltb_zero, FloatAxioms.mul_spec. apply SFmul_neg.
  - intros x y.
    rewrite !ltb_zero, FloatAxioms.div_spec, FloatAxioms.eqb_spec.
    apply SFdiv_neg.
  - intros x i.
    rewrite ltb_zero, FloatAxioms.ltb_spec, FloatAxioms.add_spec.
    apply SFadd_nonneg; apply Prim2SF_valid.
Qed.

(** ** What the upscale phase leaves alone *)

(** Unfolds the launcher down to the oracles and splits on every test. *)
Ltac crush_waifu :=
  unfold run_waifu2x, try_except, subprocess_run, on_called_process_error,
    rmtree, print, call, lift, raise, mbind, M_bind, mret, M_ret in *;
  simpl in *;
  repeat (case_match; simpl in *; simplify_eq; try done).

Section Upscale.
Context {A : Arith} (svc : Services).

Lemma run_waifu2x_frame input out t kw (w : World A) :
  let w' := (run_waifu2x svc input out t kw w).2 in
  statuses w' = statuses w
  /\ settings_reads w' = settings_reads w
  /\ detector_calls w' = detector_calls w.
Proof. crush_waifu. Qed.

Lemma bind_waifu_frame kwargs (w : World A) :
  (bind_waifu kwargs w).2 = w.
Proof.
  unfold bind_waifu, lift, mbind, M_bind, mret, M_ret.
  repeat (case_match; simpl in *; simplify_eq; try done).
Qed.

Lemma upscale_frame kwargs (w : World A) :
  let w' := (upscale svc kwargs w).2 in
  statuses w' = statuses w
  /\ settings_reads w' = settings_reads w
  /\ detector_calls w' = detector_calls w.
Proof.
  unfold upscale, mbind, M_bind.
  pose proof (bind_waifu_frame kwargs w) as Hb.
  destruct (bind_waifu kwargs w) as [[bound|e] w1]; simpl in Hb; subst w1;
    [|done].
  unfold lift. destruct (py_add _ _) as [tmp|e]; [|done].
  destruct bound as [[t kw]|]; [|done].
  apply run_waifu2x_frame.
Qed.

End Upscale.

(** ** The status messages of a whole run *)

Section Run.
Context {A : Arith} (svc : Services).

(** The percentages [run] emits after the directories: the jump to [95]
    when the upscale pass is requested, and the terminal [100]. *)
Definition checkpoints (upscaling : bool) : list (pynum A) :=
  if upscaling then [PInt 95; PInt 100] else [PInt 100].

Lemma run_steps kwargs (w : World A) u w' :
  run svc kwargs w = (Ok u, w') ->
  exists v counts,
    settings_load svc "run_postprocess" = Ok v
    /\ explored svc (length counts)
    /\ Forall (fun k => sliced svc k
                        /\ divides A (length counts) k (truthy v)) counts
    /\ percentages w' =
         percentages w
           ++ (PFloat <$> (stitch_percentages (truthy v) counts).1)
           ++ checkpoints (truthy (kw_get kwargs "use_waifu2x" (VBool false))).
Proof.
  unfold run. intros H.
  apply bind_Ok in H as (p & w1 & H1 & H).
  apply stitch_steps in H1 as (v & counts & Hv & Hex & Hsl & Hw1 & _).
  exists v, counts. do 3 (split; [done|]).
  unfold checkpoints.
  destruct (truthy (kw_get kwargs "use_waifu2x" (VBool false))).
  - apply bind_Ok in H as (u1 & w2 & H2 & H). apply status_Ok in H2.
    apply bind_Ok in H as (u2 & w3 & H3 & H). apply status_Ok in H.
    pose proof (upscale_frame svc kwargs w2) as [Hf _].
    rewrite H3 in Hf. simpl in Hf.
    chain_percentages. by rewrite <- !app_assoc.
  - apply status_Ok in H. chain_percentages. by rewrite <- !app_assoc.
Qed.

(** How many percentages the directories account for. *)
Lemma save_steps_length inc k (p : num A) :
  length (save_steps inc k p).1 = k.
Proof.
  revert p. induction k as [|k IH]; intros p; simpl; [done|].
  specialize (IH (add A p inc)).
  destruct (save_steps inc k (add A p inc)). simpl in *. by rewrite IH.
Qed.

Lemma dir_steps_length tbl n k pp (p : num A) :
  length (dir_steps tbl n k pp p).1 = (5 + k + (if pp then 1 else 0))%nat.
Proof.
  unfold dir_steps.
  pose proof (save_steps_length
                (div A (wt tbl "save")
                   (mul A (float_of_nat n) (float_of_nat k))) k
                (add A (add A (add A (add A p
                   (div A (wt tbl "load") (float_of_nat n)))
                   (div A (wt tbl "combine") (float_of_nat n)))
                   (div A (wt tbl "detect") (float_of_nat n)))
                   (div A (wt tbl "slice") (float_of_nat n)))) as Hs.
  destruct (save_steps _ _ _) as [saves p5]. simpl in Hs.
  destruct pp; simpl; rewrite ?length_app; simpl; lia.
Qed.

Lemma dirs_steps_length tbl n counts pp (p : num A) m :
  Forall (fun k => k = m) counts ->
  length (dirs_steps tbl n counts pp p).1
  = (length counts * (5 + m + (if pp then 1 else 0)))%nat.
Proof.
  intros H. revert p. induction H as [|k rest -> _ IH]; intros p; simpl;
    [done|].
  pose proof (dir_steps_length tbl n m pp p) as H1.
  destruct (dir_steps tbl n m pp p) as [l1 p1]. simpl in H1.
  specialize (IH p1). destruct (dirs_steps tbl n rest pp p1) as [l2 p2].
  simpl in *. rewrite length_app. lia.
Qed.

Lemma stitch_percentages_length pp counts m :
  Forall (fun k => k = m) counts ->
  length (stitch_percentages (A := A) pp counts).1
  = (2 + length counts * (5 + m + (if pp then 1 else 0)))%nat.
Proof.
  intros H. unfold stitch_percentages.
  pose proof (dirs_steps_length (step_table pp) (length counts) counts pp
                (add A (lit A 0) (wt (step_table pp) "explore")) m H) as Hl.
  destruct (dirs_steps _ _ _ _ _) as [l q]. simpl in *. lia.
Qed.

End Run.

(** ** What a run touches, whatever its outcome *)

Section Footprint.
Context {A : Arith} (svc : Services).

(** The keys [run] asks of the settings store, as spelled in the file. *)
Definition loaded_keys : list string :=
  [ "detector_type"; "run_postprocess"; "postprocess_app";
    "postprocess_args"; "enforce_type"; "enforce_width"; "split_height";
    "senstivity"; "ignorable_pixels"; "scan_step"; "output_type";
    "lossy_quality" ]%string.

(** The [sensitivity=] argument of a recorded [detector.run] call. *)
Definition sensitivity_of (c : pyval * pyval * pyval * pyval) : pyval :=
  c.1.1.2.

(** From [w0] to [w] nothing was launched or printed, only keys of
    [loaded_keys] were asked of the settings store, and every detector call
    was handed, as [sensitivity], what the store holds under
    ["senstivity"]. *)
Definition footprint (w0 w : World A) : Prop :=
  launched w = launched w0
  /\ printed w = printed w0
  /\ (exists ks, settings_reads w = settings_reads w0 ++ ks
                 /\ Forall (fun k => k ∈ loaded_keys) ks)
  /\ (exists cs, detector_calls w = detector_calls w0 ++ cs
                 /\ Forall (fun c => settings_load svc "senstivity"
                                      = Ok (sensitivity_of c)) cs).

(** [m] keeps within the footprint, whether it returns or raises, and
    what it returns satisfies [Q]. *)
Definition within {X} (w0 : World A) (m : M A X) (Q : X -> Prop) : Prop :=
  forall w, footprint w0 w ->
    footprint w0 (m w).2 /\ forall x, (m w).1 = Ok x -> Q x.

Lemma footprint_refl w : footprint w w.
Proof.
  repeat split; try done; exists []; by rewrite app_nil_r.
Qed.

Lemma within_bind {X Y} w0 (m : M A X) (f : X -> M A Y) Q R :
  within w0 m Q -> (forall x, Q x -> within w0 (f x) R) ->
  within w0 (m ≫= f) R.
Proof.
  intros Hm Hf w Hw. destruct (Hm w Hw) as [H1 H2].
  unfold mbind, M_bind. destruct (m w) as [[x|e] w1]; simpl in *.
  - by apply (Hf x (H2 x eq_refl)).
  - split; [done|]. intros x [=].
Qed.

Lemma within_weaken {X} w0 (m : M A X) (Q Q' : X -> Prop) :
  within w0 m Q -> (forall x, Q x -> Q' x) -> within w0 m Q'.
Proof.
  intros Hm HQ w Hw. destruct (Hm w Hw) as [H1 H2]. split; [done|].
  intros x Hx. by apply HQ, H2.
Qed.

Lemma within_ret {X} w0 (x : X) (Q : X -> Prop) :
  Q x -> within w0 (mret x) Q.
Proof. intros HQ w Hw. split; [done|]. by intros y [= <-]. Qed.

Lemma within_raise {X} w0 e (Q : X -> Prop) : within w0 (raise e) Q.
Proof. intros w Hw. split; [done|]. intros x [=]. Qed.

Lemma within_lift {X} w0 (r : result X) : within w0 (lift r) (fun _ => True).
Proof. intros w Hw. by split. Qed.

Lemma within_status w0 p msg :
  within w0 (status_func p msg) (fun _ => True).
Proof. intros w Hw. by split. Qed.

Lemma within_call {X} w0 (c : IO X) : within w0 (call c) (fun _ => True).
Proof.
  intros w Hw. unfold call. destruct (c (disk w)) as [r d]. by split.
Qed.

Lemma within_load w0 key :
  key ∈ loaded_keys ->
  within w0 (load svc key) (fun v => settings_load svc key = Ok v).
Proof.
  intros Hk w (Hl & Hp & (ks & Hks & Hall) & Hd). split; [|done].
  split; [done|]. split; [done|]. split; [|done].
  exists (ks ++ [key]). simpl. rewrite Hks, app_assoc. split; [done|].
  apply Forall_app. split; [done|]. by constructor.
Qed.

Lemma within_detect w0 det c sh se ig sc :
  settings_load svc "senstivity" = Ok se ->
  within w0 (detect svc det c sh se ig sc) (fun _ => True).
Proof.
  intros Hse w (Hl & Hp & Hk & (cs & Hcs & Hall)). unfold detect, call.
  destruct (detector_run svc det c sh se ig sc _) as [r d]. simpl.
  split; [|done]. split; [done|]. split; [done|]. split; [done|].
  exists (cs ++ [(sh, se, ig, sc)]). rewrite Hcs, app_assoc. split; [done|].
  apply Forall_app. split; [done|]. by constructor.
Qed.

Lemma within_weight w0 tbl key : within w0 (weight tbl key) (fun _ => True).
Proof.
  unfold weight. destruct (tbl !! key); [by apply within_ret|].
  apply within_raise.
Qed.

Lemma within_pydiv w0 a b : within w0 (pydiv a b) (fun _ => True).
Proof.
  unfold pydiv. destruct (eqb A b (lit A 0)); [apply within_raise|].
  by apply within_ret.
Qed.

End Footprint.

(** Membership of a literal key in [loaded_keys]. *)
Ltac loaded_key :=
  unfold loaded_keys;
  repeat first [apply list_elem_of_here | apply list_elem_of_further].

(** One statement of a body that keeps within the footprint. *)
Ltac within_step :=
  first
  [ apply within_ret; done
  | apply within_raise
  | eapply within_bind;
    [ first
      [ apply within_status | apply within_call | apply within_lift
      | apply within_weight | apply within_pydiv
      | apply within_load; loaded_key
      | apply within_detect; eassumption ]
    | cbv beta; intros ? ? ] ].

Section FootprintOfStitch.
Context {A : Arith} (svc : Services).

Lemma within_save_images w0 tbl n it dir k imgs i (p : num A) :
  within svc w0 (save_images svc tbl n it dir k imgs i p) (fun _ => True).
Proof.
  revert i p. induction imgs as [|img rest IH]; intros i p; simpl.
  - by apply within_ret.
  - do 6 within_step. apply IH.
Qed.

Lemma within_process_dir w0 det tbl n it dir (p : num A) :
  within svc w0 (process_dir svc det tbl n it dir p) (fun _ => True).
Proof.
  unfold process_dir.
  repeat first
    [ within_step
    | eapply within_bind;
      [apply within_save_images | cbv beta zeta; intros ? ?]
    | match goal with |- within _ _ (if ?b then _ else _) _ => destruct b end ].
Qed.

Lemma within_process_dirs w0 det tbl n dirs it (p : num A) :
  within svc w0 (process_dirs svc det tbl n dirs it p) (fun _ => True).
Proof.
  revert it p. induction dirs as [|dir rest IH]; intros it p; simpl.
  - by apply within_ret.
  - eapply within_bind; [apply within_process_dir|]. intros ? ?. apply IH.
Qed.

Lemma within_stitch w0 kwargs :
  within svc w0 (stitch (A := A) svc kwargs) (fun _ => True).
Proof.
  unfold stitch. do 4 within_step.
  eapply within_bind.
  { instantiate (1 := fun _ => True).
    destruct (truthy _); repeat within_step; apply within_call. }
  cbv beta zeta. intros ? ?. do 2 within_step. apply within_process_dirs.
Qed.

End FootprintOfStitch.

(** * The claims *)

(** ** Concrete runs *)

(** One working directory of three images, post-processing off, the child
    process (when one is launched) exiting with status 0. *)
Definition one_dir_three_images : Services :=
  stub (store0 false) ["chapter"] 3 (Ok (0, "")).

(** Two working directories of three images each, post-processing off. *)
Definition two_dirs_three_images : Services :=
  stub (store0 false) ["ch1"; "ch2"] 3 (Ok (0, "")).

(** Keyword arguments that request the upscale pass with the given
    upscaler path, writing under ["out"]. *)
Definition upscale_kwargs (waifu2x_path : string) : gmap string pyval :=
  {[ "input_path" := VStr "in"; "output_path" := VStr "out";
     "use_waifu2x" := VBool true; "waifu2x_path" := VStr waifu2x_path ]}.

(** A disk on which the staging tree of ["out"] exists. *)
Definition staged : gset string :=
  {[ "out"; "out/tmp"; "out/tmp/chapter"; "out/tmp/chapter/1.png" ]}.

(** ** C3: the percentages handed to the status sink *)

(** The claim as worded: a percentage below the one emitted just before it
    is the jump to [95]. *)
Definition drops_only_at_95 {A : Arith} (l : list (pynum A)) : Prop :=
  forall i a b,
    l !! i = Some a -> l !! S i = Some b -> pynum_lt b a = true ->
    b = PInt 95.

(** C3, refuted as worded: on CPython's floats, one directory of three
    images with post-processing off accumulates
    [5 + 15 + 5 + 15 + 10 + 3 * (50 / 3)] to [100.00000000000001], so the
    terminal [100] is below the percentage emitted just before it, in a run
    that has no upscale phase. *)
Lemma terminal_percentage_drops :
  let r := run (A := binary64) one_dir_three_images ∅ (world0 ∅) in
  r.1 = Ok tt
  /\ last (percentages r.2) = Some (PInt 100)
  /\ ~ drops_only_at_95 (percentages r.2).
Proof.
  split; [by vm_compute|]. split; [by vm_compute|].
  intros H.
  assert (PInt (A := binary64) 100 = PInt 95) as E; [|discriminate E].
  apply (H 9%nat (PFloat (A := binary64) 0x1.9000000000001p+6%float)
           (PInt 100));
    by vm_compute.
Qed.

(** C3, as amended: in every run that returns, a percentage handed to the
    status sink is below the one handed just before it only at the jump to
    [95] that opens the upscale phase, or at the terminal [100]; and the
    last percentage handed is [100] exactly. *)
Theorem percentages_drop_only_at_checkpoints (A : Arith) (laws : ArithLaws A)
    (svc : Services) (kwargs : gmap string pyval) (w : World A) u w' :
  run svc kwargs w = (Ok u, w') ->
  exists l,
    percentages w' = percentages w ++ l
    /\ last l = Some (PInt 100)
    /\ forall i a b,
         l !! i = Some a -> l !! S i = Some b -> pynum_lt b a = true ->
         (b = PInt 95
          /\ truthy (kw_get kwargs "use_waifu2x" (VBool false)) = true
          /\ length l = (i + 3)%nat)
         \/ (b = PInt 100 /\ length l = (i + 2)%nat).
Proof.
  intros H. apply run_steps in H as (v & counts & _ & _ & Hall & Hw).
  assert (rising (A := A) (stitch_percentages (truthy v) counts).1) as Hr.
  { apply (stitch_percentages_rising laws).
    eapply Forall_impl; [exact Hall|]. by intros k [_ Hk]. }
  set (pre := (stitch_percentages (truthy v) counts).1) in *.
  set (up := truthy (kw_get kwargs "use_waifu2x" (VBool false))) in *.
  exists ((PFloat <$> pre) ++ checkpoints up). split; [done|]. split.
  { rewrite last_app. unfold checkpoints. by destruct up. }
  intros i a b Ha Hb Hlt.
  rewrite length_app, length_fmap.
  destruct (decide (S i < length pre)%nat) as [Hin|Hout].
  - exfalso.
    rewrite lookup_app_l in Ha by (rewrite length_fmap; lia).
    rewrite lookup_app_l in Hb by (rewrite length_fmap; lia).
    rewrite list_lookup_fmap in Ha, Hb.
    destruct (pre !! i) as [a'|] eqn:Ea; [|done].
    destruct (pre !! S i) as [b'|] eqn:Eb; [|done].
    simpl in Ha, Hb. inversion Ha; inversion Hb; subst.
    unfold pynum_lt in Hlt. simpl in Hlt.
    by rewrite (rising_lookup pre i a' b' Hr Ea Eb) in Hlt.
  - rewrite lookup_app_r in Hb by (rewrite length_fmap; lia).
    rewrite length_fmap in Hb. unfold checkpoints in *.
    destruct up; simpl in *.
    + destruct (S i - length pre)%nat as [|[|k]] eqn:Ek; simpl in Hb;
        inversion Hb; subst; [left|right]; (split; [done|]);
        [split; [done|]|]; lia.
    + destruct (S i - length pre)%nat as [|k] eqn:Ek; simpl in Hb;
        inversion Hb; subst. right. split; [done|]. lia.
Qed.

(** The amended C3 at work on exact arithmetic: one directory of three
    images reaches [100], drops to [95] when the upscale phase opens, and
    ends on [100]. *)
Lemma percentages_drop_only_at_checkpoints_witness :
  exists l,
    percentages
      (run (A := exact) one_dir_three_images
         (upscale_kwargs "waifu2x-caffe-cui.exe") (world0 staged)).2
    = percentages (world0 staged) ++ l
    /\ last l = Some (PInt 100)
    /\ forall i a b,
         l !! i = Some a -> l !! S i = Some b -> pynum_lt b a = true ->
         (b = PInt 95
          /\ truthy (kw_get (upscale_kwargs "waifu2x-caffe-cui.exe")
                       "use_waifu2x" (VBool false)) = true
          /\ length l = (i + 3)%nat)
         \/ (b = PInt 100 /\ length l = (i + 2)%nat).
Proof.
  apply (percentages_drop_only_at_checkpoints exact exact_laws
           one_dir_three_images (upscale_kwargs "waifu2x-caffe-cui.exe")
           (world0 staged) tt).
  vm_compute. reflexivity.
Defined.

(** ** C5: two directories of three images *)

(** C5, refuted as worded: the run does not hand 17 messages to the status
    sink.  Besides the messages the claim counts, [run] announces the
    directories found (a second message of the exploration) and, in each
    directory, the start of the save loop. *)
Lemma two_by_three_is_not_17 :
  let r := run (A := binary64) two_dirs_three_images ∅ (world0 ∅) in
  r.1 = Ok tt /\ length (statuses r.2) <> 17%nat.
Proof.
  split; [by vm_compute|]. vm_compute. discriminate.
Qed.

(** C5, as amended: a run over exactly 2 working directories of 3 images
    each, with post-processing disabled and no upscale pass requested, that
    returns, has handed exactly 19 messages to the status sink (two for the
    exploration; per directory one each for load, combine, detect, slice and
    the start of the save loop; six saved images; one terminal message), and
    the last percentage handed is 100. *)
Theorem two_by_three_emits_19 (A : Arith) (svc : Services)
    (kwargs : gmap string pyval) (w : World A) u w' :
  (forall i o d dirs d',
      explorer_run svc i o d = (Ok dirs, d') -> length dirs = 2%nat) ->
  (forall c pts d imgs d',
      img_slice svc c pts d = (Ok imgs, d') -> length imgs = 3%nat) ->
  (forall v, settings_load svc "run_postprocess" = Ok v -> truthy v = false) ->
  truthy (kw_get kwargs "use_waifu2x" (VBool false)) = false ->
  run svc kwargs w = (Ok u, w') ->
  length (statuses w') = (length (statuses w) + 19)%nat
  /\ last (percentages w') = Some (PInt 100).
Proof.
  intros Hdirs Himgs Hpp Hup H.
  apply run_steps in H as (v & counts & Hv & Hex & Hsl & Hw).
  rewrite Hup in Hw. apply Hpp in Hv. rewrite Hv in Hw.
  destruct Hex as (i & o & d & dirs & d' & Hex & Hlen).
  apply Hdirs in Hex. rewrite Hex in Hlen.
  assert (Forall (fun k => k = 3%nat) counts) as Hall.
  { eapply Forall_impl; [exact Hsl|].
    intros k [(c & pts & d0 & imgs & d0' & Hs & Hk) _]. apply Himgs in Hs.
    lia. }
  split.
  - assert (length (percentages w') = length (statuses w')) as <-
      by apply length_fmap.
    assert (length (percentages w) = length (statuses w)) as <-
      by apply length_fmap.
    rewrite Hw, !length_app, length_fmap.
    rewrite (stitch_percentages_length false counts 3 Hall), <- Hlen.
    simpl. lia.
  - rewrite Hw, !last_app. done.
Qed.

(** The amended C5 on a concrete run of two directories of three
    images. *)
Lemma two_by_three_emits_19_witness :
  length (statuses (run (A := binary64) two_dirs_three_images ∅
                      (world0 ∅)).2)
  = (length (statuses (world0 (A := binary64) ∅)) + 19)%nat
  /\ last (percentages (run (A := binary64) two_dirs_three_images ∅
                          (world0 ∅)).2)
     = Some (PInt 100).
Proof.
  apply (two_by_three_emits_19 binary64 two_dirs_three_images ∅ (world0 ∅) tt).
  - intros i o d dirs d' H. by inversion H.
  - intros c pts d imgs d' H. by inversion H.
  - intros v H. by inversion H.
  - reflexivity.
  - vm_compute. reflexivity.
Defined.

(** The nineteen messages of that run, in order. *)
Example two_by_three_messages :
  (statuses (run (A := binary64) two_dirs_three_images ∅ (world0 ∅)).2).*2
  = [ "Exploring input directory for working directories";
      "Working - [2] Working directories were found";
      "Working - [1/2] Preparing & loading images Into memory";
      "Working - [1/2] Combining images into a single combined image";
      "Working - [1/2] Detecting & selecting valid slicing points";
      "Working - [1/2] Generating sliced output images in memory";
      "Working - [1/2] Saving output images to storage";
      "Working - [1/2] ch1/1.png has been successfully saved";
      "Working - [1/2] ch1/2.png has been successfully saved";
      "Working - [1/2] ch1/3.png has been successfully saved";
      "Working - [2/2] Preparing & loading images Into memory";
      "Working - [2/2] Combining images into a single combined image";
      "Working - [2/2] Detecting & selecting valid slicing points";
      "Working - [2/2] Generating sliced output images in memory";
      "Working - [2/2] Saving output images to storage";
      "Working - [2/2] ch2/1.png has been successfully saved";
      "Working - [2/2] ch2/2.png has been successfully saved";
      "Working - [2/2] ch2/3.png has been successfully saved";
      "Idle - Process completed in 0.000 seconds" ]%string.
Proof. by vm_compute. Qed.

(** ** C1: an upscaler path with neither suffix *)

Lemma upscale_unrecognized {A : Arith} (svc : Services)
    (kwargs : gmap string pyval) (w : World A) :
  endswith (py_str (kw_get kwargs "waifu2x_path" (VStr ""))) "cui.exe" = false ->
  endswith (py_str (kw_get kwargs "waifu2x_path" (VStr ""))) "vulkan.exe"
  = false ->
  upscale svc kwargs w
  = (match py_add (kw_get kwargs "output_path" (VStr "")) "/tmp" with
     | Ok _ => Raise unbound_waifu_type
     | Raise e => Raise e
     end, w).
Proof.
  intros Hc Hv. unfold upscale, bind_waifu. rewrite Hc, Hv.
  unfold mbind, M_bind, mret, M_ret, lift, raise.
  by destruct (py_add _ _).
Qed.

Lemma stitch_Ok_output_path {A : Arith} (svc : Services)
    (kwargs : gmap string pyval) (w : World A) p w' :
  truthy (kw_get kwargs "use_waifu2x" (VBool false)) = true ->
  stitch svc kwargs w = (Ok p, w') ->
  exists tmp, py_add (kw_get kwargs "output_path" (VStr "")) "/tmp" = Ok tmp.
Proof.
  unfold stitch. intros Hup H. rewrite Hup in H.
  do 4 (apply bind_Ok in H as (? & ? & _ & H); cbv beta zeta in H).
  apply bind_Ok in H as (dirs & ? & H & _).
  apply bind_Ok in H as (tmp & ? & H & _). apply lift_Ok in H as [H _].
  eauto.
Qed.

(** C1, on the code: when the upscale pass is requested and the upscaler
    path ends with neither ["cui.exe"] nor ["vulkan.exe"], no run completes
    normally.  Nothing is launched, as the claim says; but the run raises:
    once the directories are processed, the call of [run_waifu2x] reads the
    local [waifu_type], which neither branch has bound, and that raises
    [UnboundLocalError]. *)
Theorem unrecognized_upscaler_raises (A : Arith) (svc : Services)
    (kwargs : gmap string pyval) (w : World A) :
  truthy (kw_get kwargs "use_waifu2x" (VBool false)) = true ->
  endswith (py_str (kw_get kwargs "waifu2x_path" (VStr ""))) "cui.exe" = false ->
  endswith (py_str (kw_get kwargs "waifu2x_path" (VStr ""))) "vulkan.exe"
  = false ->
  (exists e, (run svc kwargs w).1 = Raise e)
  /\ launched (run svc kwargs w).2 = launched w
  /\ forall p w1,
       stitch svc kwargs w = (Ok p, w1) ->
       (run svc kwargs w).1 = Raise unbound_waifu_type.
Proof.
  intros Hup Hc Hv.
  destruct (within_stitch svc w kwargs w (footprint_refl svc w))
    as [(Hl & _) _].
  unfold run. rewrite Hup. unfold mbind, M_bind.
  destruct (stitch svc kwargs w) as [[p|e] w1] eqn:Es; simpl in *.
  - rewrite (upscale_unrecognized svc kwargs _ Hc Hv). simpl.
    destruct (stitch_Ok_output_path svc kwargs w p w1 Hup Es) as [tmp Htmp].
    rewrite Htmp. simpl. split; [eauto|]. split; [done|]. by intros.
  - split; [eauto|]. split; [done|]. by intros.
Qed.

(** C1 on a concrete run: one directory of three images, the upscaler
    path ["waifu2x.exe"]. *)
Lemma unrecognized_upscaler_raises_witness :
  let r := run (A := binary64) one_dir_three_images
             (upscale_kwargs "waifu2x.exe") (world0 staged) in
  (exists e, r.1 = Raise e)
  /\ launched r.2 = launched (world0 (A := binary64) staged)
  /\ forall p w1,
       stitch (A := binary64) one_dir_three_images
         (upscale_kwargs "waifu2x.exe") (world0 staged) = (Ok p, w1) ->
       r.1 = Raise unbound_waifu_type.
Proof.
  apply (unrecognized_upscaler_raises binary64 one_dir_three_images
           (upscale_kwargs "waifu2x.exe") (world0 staged));
    by vm_compute.
Defined.

(** The same run, evaluated: it raises [UnboundLocalError] after the
    jump to [95], with nothing launched and the staging tree in place. *)
Example unrecognized_upscaler_run :
  let r := run (A := binary64) one_dir_three_images
             (upscale_kwargs "waifu2x.exe") (world0 staged) in
  r.1 = Raise unbound_waifu_type
  /\ last (percentages r.2) = Some (PInt 95)
  /\ launched r.2 = []
  /\ disk r.2 = staged.
Proof. repeat split; by vm_compute. Qed.

(** ** C2: divisions by zero *)

(** One working directory whose slicing yields no image, post-processing
    on. *)
Definition one_dir_no_image_postprocessed : Services :=
  stub (store0 true) ["chapter"] 0 (Ok (0, "")).

(** C2, on the code: a working directory that yields zero images, with
    post-processing enabled, makes the run raise [ZeroDivisionError].  The
    save loop is skipped, but the post-process increment, which stands
    after the loop, is evaluated: [20.0 / (float(1) * float(0))].  The last
    message handed to the status sink is the one that announces the
    post-process. *)
Theorem zero_images_postprocess_divides_by_zero :
  let r := run (A := binary64) one_dir_no_image_postprocessed ∅ (world0 ∅) in
  r.1 = Raise (Exn ZeroDivisionError "float division by zero")
  /\ snd <$> last (statuses r.2)
     = Some "Working - [1/1] Running post process on output files".
Proof. split; by vm_compute. Qed.

(** What does hold of C2: no working directory at all, and a directory
    without images when post-processing is off, let the run complete, with
    or without the upscale pass. *)
Example zero_directories_complete :
  (run (A := binary64) (stub (store0 true) [] 0 (Ok (0, ""))) ∅
     (world0 ∅)).1 = Ok tt
  /\ (run (A := binary64) (stub (store0 true) [] 0 (Ok (0, "")))
        (upscale_kwargs "waifu2x-caffe-cui.exe") (world0 staged)).1 = Ok tt
  /\ percentages
       (run (A := binary64) (stub (store0 true) [] 0 (Ok (0, "")))
          (upscale_kwargs "waifu2x-caffe-cui.exe") (world0 staged)).2
     = [PFloat (A := binary64) 0%float; PFloat (A := binary64) 0%float;
        PInt 95; PInt 100].
Proof. repeat split; by vm_compute. Qed.

Example zero_images_without_postprocess_complete :
  (run (A := binary64) (stub (store0 false) ["chapter"] 0 (Ok (0, ""))) ∅
     (world0 ∅)).1 = Ok tt.
Proof. by vm_compute. Qed.

(** ** C4: what the increments add up to *)

(** One working directory of two images, post-processing on. *)
Definition one_dir_two_images_postprocessed : Services :=
  stub (store0 true) ["chapter"] 2 (Ok (0, "")).

(** C4, on the code: with post-processing enabled, one directory of two
    images leaves [percentage] at [90], not [100], when the loop over the
    directories ends: the post-process weight is divided by the number of
    directories times the number of images, [20 / (1 * 2)], although the
    post-process runs once per directory.  (All the values involved are
    exact in binary64.) *)
Theorem postprocess_weight_is_divided_by_image_count :
  (stitch (A := binary64) one_dir_two_images_postprocessed ∅ (world0 ∅)).1
  = Ok 90%float.
Proof. by vm_compute. Qed.

(** The rest of C4 on concrete runs: with post-processing off the same
    directory reaches [100]; with the upscale pass requested the last two
    percentages are [95] and [100] whatever was accumulated. *)
Example without_postprocess_reaches_100 :
  (stitch (A := binary64) (stub (store0 false) ["chapter"] 2 (Ok (0, ""))) ∅
     (world0 ∅)).1 = Ok 100%float.
Proof. by vm_compute. Qed.

(** On floats even that is not general: three images per directory
    accumulate [50/3] three times. *)
Example without_postprocess_overshoots_100 :
  (stitch (A := binary64) one_dir_three_images ∅ (world0 ∅)).1
  = Ok 0x1.9000000000001p+6%float.
Proof. by vm_compute. Qed.

(** In exact arithmetic, where rounding plays no part: the increments of
    [n >= 1] directories of [m >= 1] images each add up to [100] when
    post-processing is off, and to [80 + 20/m] when it is on. *)
Section ExactSum.
Local Open Scope Q_scope.






End ExactSum.

(** ** C10: the error-reporting wrapper *)

(** C10: when [run] raises an exception (an instance of [Exception], which
    is what [except Exception] catches), [run_with_error_msgs] hands the
    status sink one more message, ["Idle - "] followed by the text of the
    exception, with the [int] [0] as its percentage whatever had been
    reported before, changes nothing else, and raises the same
    exception. *)
Theorem run_with_error_msgs_reports (A : Arith) (svc : Services)
    (kwargs : gmap string pyval) (w : World A) e w1 :
  run svc kwargs w = (Raise e, w1) ->
  is_Exception e = true ->
  run_with_error_msgs svc kwargs w
  = (Raise e,
     mkWorld (statuses w1 ++ [(PInt 0, ("Idle - " ++ exn_msg e)%string)])
       (settings_reads w1) (detector_calls w1) (launched w1) (printed w1)
       (disk w1)).
Proof.
  intros Hrun He. unfold run_with_error_msgs, try_except, report_error.
  rewrite Hrun, He. reflexivity.
Qed.

(** C10 on the run of C2, which raises [ZeroDivisionError] after six
    messages at up to 50 percent. *)
Lemma run_with_error_msgs_reports_witness :
  let e := Exn ZeroDivisionError "float division by zero" in
  let w1 := (run (A := binary64) one_dir_no_image_postprocessed ∅
               (world0 ∅)).2 in
  run_with_error_msgs one_dir_no_image_postprocessed ∅ (world0 ∅)
  = (Raise e,
     mkWorld (statuses w1 ++ [(PInt 0, ("Idle - " ++ exn_msg e)%string)])
       (settings_reads w1) (detector_calls w1) (launched w1) (printed w1)
       (disk w1)).
Proof.
  apply (run_with_error_msgs_reports binary64 one_dir_no_image_postprocessed
           ∅ (world0 ∅)); by vm_compute.
Defined.

(** The wrapper lets through what is not an [Exception]: nothing is
    reported. *)
Example keyboard_interrupt_is_not_reported (A : Arith) (svc : Services)
    (kwargs : gmap string pyval) (w : World A) w1 msg :
  run svc kwargs w = (Raise (Exn KeyboardInterrupt msg), w1) ->
  run_with_error_msgs svc kwargs w = (Raise (Exn KeyboardInterrupt msg), w1).
Proof.
  intros Hrun. unfold run_with_error_msgs, try_except, report_error.
  by rewrite Hrun.
Qed.

(** ** C9: the keys asked of the settings store *)

(** The configuration keys as the specification lists them. *)
Definition documented_keys : list string :=
  [ "detector_type"; "run_postprocess"; "postprocess_app";
    "postprocess_args"; "enforce_type"; "enforce_width"; "split_height";
    "sensitivity"; "ignorable_pixels"; "scan_step"; "output_type";
    "lossy_quality" ]%string.

(** A settings store that holds both spellings, with different values. *)
Definition both_spellings : Services :=
  stub (<["sensitivity" := VInt 75]> (store0 false)) ["chapter"] 3
    (Ok (0, "")).

(** C9, refuted as worded: the run asks the store for ["senstivity"], which
    is not a documented key, and hands the detector what the store holds
    under that key (90), not what it holds under ["sensitivity"] (75). *)
Lemma sensitivity_is_not_loaded_as_documented :
  let r := run (A := binary64) both_spellings ∅ (world0 ∅) in
  r.1 = Ok tt
  /\ ~ Forall (fun k => k ∈ documented_keys) (settings_reads r.2)
  /\ ~ Forall (fun c => settings_load both_spellings "sensitivity"
                         = Ok (sensitivity_of c))
         (detector_calls r.2).
Proof.
  split; [by vm_compute|]. split.
  - intros H.
    assert (("senstivity" : string) ∈ settings_reads
              (run (A := binary64) both_spellings ∅ (world0 ∅)).2) as Hin.
    { vm_compute. do 5 apply list_elem_of_further. apply list_elem_of_here. }
    rewrite Forall_forall in H. apply H in Hin. unfold documented_keys in Hin.
    repeat (apply elem_of_cons in Hin as [Hin|Hin]; [discriminate Hin|]).
    by apply elem_of_nil in Hin.
  - intros H.
    assert (detector_calls (run (A := binary64) both_spellings ∅ (world0 ∅)).2
            = [(VInt 5000, VInt 90, VInt 5, VInt 5)]) as E by by vm_compute.
    rewrite E in H. apply Forall_inv in H. vm_compute in H. discriminate H.
Qed.

(** C9, as amended: during every run, whatever its outcome, each settings
    value is loaded under one of the keys [detector_type],
    [run_postprocess], [postprocess_app], [postprocess_args],
    [enforce_type], [enforce_width], [split_height], [senstivity],
    [ignorable_pixels], [scan_step], [output_type], [lossy_quality]; and
    the [sensitivity] argument of every [detector.run] call is the value
    the settings provider returns for the key ["senstivity"]. *)
Theorem sensitivity_is_loaded_as_senstivity (A : Arith) (svc : Services)
    (kwargs : gmap string pyval) (w : World A) :
  (exists ks,
      settings_reads (run svc kwargs w).2 = settings_reads w ++ ks
      /\ Forall (fun k => k ∈ loaded_keys) ks)
  /\ (exists cs,
        detector_calls (run svc kwargs w).2 = detector_calls w ++ cs
        /\ Forall (fun c => settings_load svc "senstivity"
                            = Ok (sensitivity_of c)) cs).
Proof.
  destruct (within_stitch svc w kwargs w (footprint_refl svc w))
    as [(_ & _ & Hk & Hd) _].
  assert (settings_reads (run svc kwargs w).2
          = settings_reads (stitch svc kwargs w).2
          /\ detector_calls (run svc kwargs w).2
            = detector_calls (stitch svc kwargs w).2) as [-> ->]; [|done].
  unfold run, mbind, M_bind.
  destruct (stitch svc kwargs w) as [[p|e] w1]; [|done]. simpl.
  destruct (truthy _); [|done]. simpl.
  match goal with |- context [upscale svc kwargs ?w2] =>
    destruct (upscale_frame svc kwargs w2) as (_ & Hr & Hc);
    destruct (upscale svc kwargs w2) as [[u|e] w3] end; simpl in *;
    by rewrite Hr, Hc.
Qed.

(** ** C6 and C7: the two command lines *)

(** The command lines as the specification writes them. *)
Definition variant_A_command_line
    (exe inp out type mode scale noise device_mode crop quality depth batch
     device tta : string) : list string :=
  [ exe; "-i"; inp; "-o"; out; "-e"; type; "-m"; mode; "-s"; scale;
    "-n"; noise; "-p"; device_mode; "-c"; crop; "-q"; quality; "-d"; depth;
    "-b"; batch; "--gpu"; device; "-t"; tta ]%string.

Definition variant_B_command_line
    (exe inp out noise scale tile model_path gpu_id format : string)
    : list string :=
  [ exe; "-i"; inp; "-o"; out; "-n"; noise; "-s"; scale; "-t"; tile;
    "-m"; model_path; "-g"; gpu_id; "-x"; "-f"; format ]%string.

Lemma endswith_truthy s suffix :
  suffix <> ""%string -> endswith s suffix = true -> truthy (VStr s) = true.
Proof.
  unfold endswith. intros Hne H. apply andb_true_iff in H as [H _].
  apply Nat.leb_le in H. destruct suffix; [done|]. destruct s; [|done].
  simpl in H. lia.
Qed.

Section Launch.
Context {A : Arith} (svc : Services).

Lemma run_waifu2x_caffe_launched input out kw (w : World A) :
  truthy (kw_get kw "path" (VStr "")) = true ->
  launched (run_waifu2x svc input out "caffe" kw w).2
  = launched w ++ [caffe_command input out kw].
Proof.
  intros H. unfold run_waifu2x.
  change (String.eqb "caffe" "caffe") with true. cbv iota. rewrite H.
  generalize (caffe_command input out kw). intros cmd.
  crush_waifu.
Qed.

Lemma run_waifu2x_vulkan_launched input out kw (w : World A) :
  truthy (kw_get kw "path" (VStr "")) = true ->
  launched (run_waifu2x svc input out "vulkan" kw w).2
  = launched w ++ [vulkan_command input out kw].
Proof.
  intros H. unfold run_waifu2x.
  change (String.eqb "vulkan" "caffe") with false.
  change (String.eqb "vulkan" "vulkan") with true. cbv iota. rewrite H.
  generalize (vulkan_command input out kw). intros cmd.
  crush_waifu.
Qed.

End Launch.

(** Replaces what [kwargs] holds by variables, so that the dictionaries
    built from it can be evaluated. *)
Ltac abstract_kwargs kwargs :=
  unfold kw_get;
  repeat match goal with
  | |- context [default ?d (kwargs !! ?k)] =>
      generalize (default d (kwargs !! k)); intro
  end.

Lemma caffe_command_of_kwargs kwargs model input out :
  let arg key dflt := py_str (kw_get kwargs key dflt) in
  caffe_command input (VStr out) (caffe_kwargs kwargs model)
  = VStr <$>
      variant_A_command_line (arg "waifu2x_path" (VStr "")) input out
        (arg "output_type" (VStr ".png")) (arg "mode" (VStr "noise_scale"))
        (arg "scale_ratio" (VFloat "2.0")) (arg "noise_level" (VInt 0))
        (arg "processWaifu" (VStr "cpu")) (arg "crop_size" (VInt 128))
        (arg "output_quality" (VInt (-1))) (arg "output_depth" (VInt 8))
        (arg "batch_size" (VInt 1)) (arg "gpu_device" (VInt 0))
        (arg "tta" (VInt 0)).
Proof.
  intros arg. subst arg. cbv beta.
  unfold caffe_command, caffe_kwargs, variant_A_command_line.
  abstract_kwargs kwargs.
  vm_compute. reflexivity.
Qed.

(** C6: when the upscaler path ends with ["cui.exe"] (and the dispatch is
    reached: the output path and the profile are strings), what [run]
    launches is exactly the Variant A command line, in that order, each
    optional parameter replaced when omitted by its default: mode
    [noise_scale], scale ratio [2.0], noise level [0], crop size [128],
    output quality [-1], output depth [8], batch size [1], GPU device [0],
    TTA [0], and profile [cunet] for the model path handed to
    [run_waifu2x]. *)
Theorem caffe_command_line (A : Arith) (svc : Services)
    (kwargs : gmap string pyval) (w : World A) (out profile : string) :
  let arg key dflt := py_str (kw_get kwargs key dflt) in
  endswith (arg "waifu2x_path" (VStr "")) "cui.exe" = true ->
  kw_get kwargs "output_path" (VStr "") = VStr out ->
  kw_get kwargs "profile" (VStr "cunet") = VStr profile ->
  launched (upscale svc kwargs w).2
  = launched w
      ++ [VStr <$>
            variant_A_command_line (arg "waifu2x_path" (VStr ""))
              (out ++ "/tmp")%string out
              (arg "output_type" (VStr ".png"))
              (arg "mode" (VStr "noise_scale"))
              (arg "scale_ratio" (VFloat "2.0"))
              (arg "noise_level" (VInt 0))
              (arg "processWaifu" (VStr "cpu"))
              (arg "crop_size" (VInt 128))
              (arg "output_quality" (VInt (-1)))
              (arg "output_depth" (VInt 8))
              (arg "batch_size" (VInt 1))
              (arg "gpu_device" (VInt 0))
              (arg "tta" (VInt 0))]
  /\ exists kwargs_waifu,
       bind_waifu kwargs w = (Ok (Some ("caffe"%string, kwargs_waifu)), w)
       /\ kwargs_waifu !! "model" = Some (VStr ("models/" ++ profile)%string).
Proof.
  intros arg Hend Hout Hprof. subst arg. cbv beta in *.
  assert (bind_waifu (A := A) kwargs w
          = (Ok (Some ("caffe"%string,
                       caffe_kwargs kwargs ("models/" ++ profile)%string)), w))
    as Hbind.
  { unfold bind_waifu. rewrite Hend, Hprof. reflexivity. }
  split.
  - unfold upscale. unfold mbind at 1, M_bind. rewrite Hbind.
    rewrite Hout. unfold py_add, lift, mbind, M_bind.
    rewrite run_waifu2x_caffe_launched.
    + by rewrite caffe_command_of_kwargs.
    + assert (kw_get (caffe_kwargs kwargs ("models/" ++ profile)%string)
                "path" (VStr "")
              = VStr (py_str (kw_get kwargs "waifu2x_path" (VStr "")))) as ->.
      { unfold caffe_kwargs. abstract_kwargs kwargs. by vm_compute. }
      by apply (endswith_truthy _ "cui.exe").
  - eexists. split; [exact Hbind|].
    unfold caffe_kwargs. abstract_kwargs kwargs. by vm_compute.
Qed.

(** C6 with every optional parameter omitted. *)
Lemma caffe_command_line_witness :
  launched
    (upscale (A := binary64) one_dir_three_images
       (upscale_kwargs "C:/waifu2x/waifu2x-caffe-cui.exe") (world0 staged)).2
  = [VStr <$>
       [ "C:/waifu2x/waifu2x-caffe-cui.exe"; "-i"; "out/tmp"; "-o"; "out";
         "-e"; ".png"; "-m"; "noise_scale"; "-s"; "2.0"; "-n"; "0";
         "-p"; "cpu"; "-c"; "128"; "-q"; "-1"; "-d"; "8"; "-b"; "1";
         "--gpu"; "0"; "-t"; "0" ]%string].
Proof.
  destruct (caffe_command_line binary64 one_dir_three_images
              (upscale_kwargs "C:/waifu2x/waifu2x-caffe-cui.exe")
              (world0 staged) "out" "cunet") as [H _];
    [by vm_compute..|].
  rewrite H. by vm_compute.
Defined.

(** A path that ends with ["vulkan.exe"] does not end with ["cui.exe"]:
    the [elif] is reached. *)
Lemma substring_prefix b c s :
  substring b c (substring 0 (b + c) s) = substring b c s.
Proof.
  revert s. induction b as [|b IH]; intros s.
  - simpl. revert s. induction c as [|c IHc]; intros s.
    + by destruct s.
    + destruct s as [|x s]; [done|]. simpl. by rewrite IHc.
  - destruct s as [|x s]; [done|]. simpl. apply IH.
Qed.

Lemma substring_substring a b c s :
  substring b c (substring a (b + c) s) = substring (a + b) c s.
Proof.
  revert s. induction a as [|a IH]; intros s.
  - apply substring_prefix.
  - destruct s as [|x s]; simpl.
    + by destruct b, c.
    + apply IH.
Qed.

Lemma endswith_vulkan_not_cui s :
  endswith s "vulkan.exe" = true -> endswith s "cui.exe" = false.
Proof.
  unfold endswith. intros H. apply andb_true_iff in H as [Hlen H].
  apply Nat.leb_le in Hlen. apply String.eqb_eq in H.
  change (String.length "vulkan.exe") with 10%nat in *.
  change (String.length "cui.exe") with 7%nat.
  apply andb_false_iff. right. apply String.eqb_neq.
  replace (String.length s - 7)%nat with (String.length s - 10 + 3)%nat by lia.
  rewrite <- (substring_substring _ 3 7). simpl Nat.add. rewrite H.
  by vm_compute.
Qed.

Lemma vulkan_command_of_kwargs kwargs model input out :
  let arg key dflt := py_str (kw_get kwargs key dflt) in
  vulkan_command input (VStr out) (vulkan_kwargs kwargs model)
  = VStr <$>
      variant_B_command_line (arg "waifu2x_path" (VStr "")) input out
        (arg "noise_level" (VInt (-1))) (arg "scale_ratio" (VInt 1))
        (arg "tile" (VInt 0)) model
        (if String.eqb (arg "processWaifu" (VStr "cpu")) "cpu"
         then "-1" else "0")
        (arg "output_type" (VStr ".png")).
Proof.
  intros arg. subst arg. cbv beta.
  unfold vulkan_command, vulkan_kwargs, variant_B_command_line.
  abstract_kwargs kwargs.
  match goal with |- context [String.eqb ?a ?b] => destruct (String.eqb a b) end;
    vm_compute; reflexivity.
Qed.

(** C7: when the upscaler path ends with ["vulkan.exe"] (and the dispatch
    is reached: the output path and the profile are strings), what [run]
    launches is exactly the Variant B command line, the omitted parameters
    defaulting to noise level [-1], scale ratio [1], tile [0] and profile
    [cunet], and the GPU id being [-1] when the device mode is ["cpu"]
    (which it is when omitted) and [0] for any other value. *)
Theorem vulkan_command_line (A : Arith) (svc : Services)
    (kwargs : gmap string pyval) (w : World A) (out profile : string) :
  let arg key dflt := py_str (kw_get kwargs key dflt) in
  endswith (arg "waifu2x_path" (VStr "")) "vulkan.exe" = true ->
  kw_get kwargs "output_path" (VStr "") = VStr out ->
  kw_get kwargs "profile" (VStr "cunet") = VStr profile ->
  launched (upscale svc kwargs w).2
  = launched w
      ++ [VStr <$>
            variant_B_command_line (arg "waifu2x_path" (VStr ""))
              (out ++ "/tmp")%string out
              (arg "noise_level" (VInt (-1)))
              (arg "scale_ratio" (VInt 1))
              (arg "tile" (VInt 0))
              ("models/" ++ profile)%string
              (if String.eqb (arg "processWaifu" (VStr "cpu")) "cpu"
               then "-1" else "0")
              (arg "output_type" (VStr ".png"))].
Proof.
  intros arg Hend Hout Hprof. subst arg. cbv beta in *.
  assert (bind_waifu (A := A) kwargs w
          = (Ok (Some ("vulkan"%string,
                       vulkan_kwargs kwargs ("models/" ++ profile)%string)), w))
    as Hbind.
  { unfold bind_waifu.
    rewrite (endswith_vulkan_not_cui _ Hend), Hend, Hprof. reflexivity. }
  unfold upscale. unfold mbind at 1, M_bind. rewrite Hbind.
  rewrite Hout. unfold py_add, lift, mbind, M_bind.
  rewrite run_waifu2x_vulkan_launched.
  - by rewrite vulkan_command_of_kwargs.
  - assert (kw_get (vulkan_kwargs kwargs ("models/" ++ profile)%string)
              "path" (VStr "")
            = VStr (py_str (kw_get kwargs "waifu2x_path" (VStr "")))) as ->.
    { unfold vulkan_kwargs. abstract_kwargs kwargs.
      match goal with |- context [String.eqb ?a ?b] =>
        destruct (String.eqb a b) end; by vm_compute. }
    by apply (endswith_truthy _ "vulkan.exe").
Qed.

(** C7 with every optional parameter omitted, and with the device mode
    ["gpu"]. *)
Lemma vulkan_command_line_witness :
  launched
    (upscale (A := binary64) one_dir_three_images
       (upscale_kwargs "waifu2x-ncnn-vulkan.exe") (world0 staged)).2
  = [VStr <$>
       [ "waifu2x-ncnn-vulkan.exe"; "-i"; "out/tmp"; "-o"; "out";
         "-n"; "-1"; "-s"; "1"; "-t"; "0"; "-m"; "models/cunet";
         "-g"; "-1"; "-x"; "-f"; ".png" ]%string]
  /\ launched
       (upscale (A := binary64) one_dir_three_images
          (<["processWaifu" := VStr "gpu"]>
             (upscale_kwargs "waifu2x-ncnn-vulkan.exe")) (world0 staged)).2
     = [VStr <$>
          [ "waifu2x-ncnn-vulkan.exe"; "-i"; "out/tmp"; "-o"; "out";
            "-n"; "-1"; "-s"; "1"; "-t"; "0"; "-m"; "models/cunet";
            "-g"; "0"; "-x"; "-f"; ".png" ]%string].
Proof.
  split.
  - rewrite (vulkan_command_line binary64 one_dir_three_images
               (upscale_kwargs "waifu2x-ncnn-vulkan.exe") (world0 staged)
               "out" "cunet"); by vm_compute.
  - rewrite (vulkan_command_line binary64 one_dir_three_images
               (<["processWaifu" := VStr "gpu"]>
                  (upscale_kwargs "waifu2x-ncnn-vulkan.exe"))
               (world0 staged) "out" "cunet"); by vm_compute.
Defined.

(** ** C8: the staging tree after [run_waifu2x] *)

(** The command line of a recognized variant. *)
Definition waifu_command (waifu_type input_path : string) (output_path : pyval)
    (kwargs : gmap string pyval) : list pyval :=
  if String.eqb waifu_type "caffe"
  then caffe_command input_path output_path kwargs
  else vulkan_command input_path output_path kwargs.

(** The upscaler cannot be launched: no such file. *)
Definition no_such_upscaler : exn :=
  Exn FileNotFoundError
    "[Errno 2] No such file or directory: 'waifu2x-caffe-cui.exe'".

(** C8, refuted as worded: when the upscaler cannot be launched,
    [subprocess.run] raises an error that is not a [CalledProcessError];
    [run_waifu2x] lets it through, [shutil.rmtree] is not reached, and the
    staging tree is still there. *)
Lemma launch_failure_leaves_staging_tree :
  let svc := stub (store0 false) ["chapter"] 3 (Raise no_such_upscaler) in
  let r := run_waifu2x (A := binary64) svc "out/tmp" (VStr "out") "caffe"
             (caffe_kwargs (upscale_kwargs "waifu2x-caffe-cui.exe")
                "models/cunet") (world0 staged) in
  r.1 = Raise no_such_upscaler
  /\ length (launched r.2) = 1%nat
  /\ ("out/tmp" : string) ∈ disk r.2.
Proof.
  split; [by vm_compute|]. split; [by vm_compute|].
  assert (disk (run_waifu2x (A := binary64)
                  (stub (store0 false) ["chapter"] 3 (Raise no_such_upscaler))
                  "out/tmp" (VStr "out") "caffe"
                  (caffe_kwargs (upscale_kwargs "waifu2x-caffe-cui.exe")
                     "models/cunet") (world0 staged)).2 = staged) as ->
    by by vm_compute.
  unfold staged. set_solver.
Qed.

Lemma rmtree_removes {A : Arith} path (w : World A) :
  path ∉ disk (rmtree path w).2.
Proof.
  unfold rmtree. destruct (decide (path ∈ disk w)) as [Hin|Hout]; simpl.
  - intros H. apply elem_of_filter in H as [H _].
    unfold in_tree in H. by rewrite String.eqb_refl in H.
  - done.
Qed.

(** C8, as amended: for every upscale invocation under a recognized
    variant, once the external process has exited, with exit code zero or
    not, the staging input directory no longer exists when [run_waifu2x]
    returns or raises (and likewise when the path is empty and nothing is
    launched); when the process cannot be launched, [run_waifu2x] raises
    the launch error and the disk is as the failed launch left it. *)
Theorem staging_tree_after_run_waifu2x (A : Arith) (svc : Services)
    (input_path : string) (output_path : pyval) (waifu_type : string)
    (kwargs : gmap string pyval) (w : World A) :
  waifu_type = "caffe"%string \/ waifu_type = "vulkan"%string ->
  let r := run_waifu2x svc input_path output_path waifu_type kwargs w in
  if truthy (kw_get kwargs "path" (VStr "")) then
    match spawn svc (waifu_command waifu_type input_path output_path kwargs)
            (disk w) with
    | (Ok _, _) => input_path ∉ disk r.2
    | (Raise e, d) =>
        match exn_cls e with
        | CalledProcessError _ => input_path ∉ disk r.2
        | _ => r.1 = Raise e /\ disk r.2 = d
        end
    end
  else input_path ∉ disk r.2.
Proof.
  intros [-> | ->]; cbv zeta; unfold run_waifu2x, waifu_command;
    [ change (String.eqb "caffe" "caffe") with true
    | change (String.eqb "vulkan" "caffe") with false;
      change (String.eqb "vulkan" "vulkan") with true ];
    cbv iota; simpl orb;
    [ generalize (caffe_command input_path output_path kwargs)
    | generalize (vulkan_command input_path output_path kwargs) ];
    intros cmd;
    (destruct (truthy _);
     [ unfold try_except, subprocess_run, on_called_process_error, print,
         call, raise, mbind, M_bind, mret, M_ret; simpl;
       destruct (spawn svc cmd (disk w)) as [[[code err]|e] d]; simpl;
       [ destruct (code =? 0); simpl; apply rmtree_removes
       | destruct e as [[] msg]; simpl; try done; apply rmtree_removes ]
     | unfold mbind, M_bind, mret, M_ret; simpl; apply rmtree_removes ]).
Qed.

(** The amended C8 when the upscaler exits with status 1. *)
Lemma staging_tree_after_run_waifu2x_witness :
  ("out/tmp" : string)
    ∉ disk (run_waifu2x (A := binary64)
              (stub (store0 false) ["chapter"] 3 (Ok (1, "b'failed'")))
              "out/tmp" (VStr "out") "caffe"
              (caffe_kwargs (upscale_kwargs "waifu2x-caffe-cui.exe")
                 "models/cunet") (world0 staged)).2.
Proof.
  exact (staging_tree_after_run_waifu2x binary64
           (stub (store0 false) ["chapter"] 3 (Ok (1, "b'failed'")))
           "out/tmp" (VStr "out") "caffe"
           (caffe_kwargs (upscale_kwargs "waifu2x-caffe-cui.exe")
              "models/cunet") (world0 staged) (or_introl eq_refl)).
Defined.

(** * Further properties of the code *)

(** ** Progress on CPython's floats *)

(** X1: on IEEE binary64, which is what CPython computes with, every run
    that returns has handed the status sink, before the checkpoints [95]
    and [100], a sequence of float percentages none of which is below the
    one handed just before it: rounding never makes the progress bar step
    back while the directories are processed. *)
Theorem binary64_progress_never_steps_back (svc : Services)
    (kwargs : gmap string pyval) (w : World binary64) u w' :
  run svc kwargs w = (Ok u, w') ->
  exists l : list float,
    percentages w' =
      percentages w ++ (PFloat <$> l)
        ++ checkpoints (truthy (kw_get kwargs "use_waifu2x" (VBool false)))
    /\ forall i a b,
         l !! i = Some a -> l !! S i = Some b -> (b <? a)%float = false.
Proof.
  intros H. apply run_steps in H as (v & counts & _ & _ & Hall & Hw).
  exists (stitch_percentages (A := binary64) (truthy v) counts).1.
  split; [done|]. intros i a b Ha Hb.
  eapply (rising_lookup (A := binary64)); [|exact Ha|exact Hb].
  apply (stitch_percentages_rising binary64_laws).
  eapply Forall_impl; [exact Hall|]. by intros k [_ Hk].
Qed.

Lemma binary64_progress_never_steps_back_witness :
  exists l : list float,
    percentages (run (A := binary64) one_dir_three_images
                   (upscale_kwargs "waifu2x-caffe-cui.exe") (world0 staged)).2
    = percentages (world0 (A := binary64) staged) ++ (PFloat <$> l)
        ++ checkpoints
             (truthy (kw_get (upscale_kwargs "waifu2x-caffe-cui.exe")
                        "use_waifu2x" (VBool false)))
    /\ forall i a b,
         l !! i = Some a -> l !! S i = Some b -> (b <? a)%float = false.
Proof.
  apply (binary64_progress_never_steps_back one_dir_three_images
           (upscale_kwargs "waifu2x-caffe-cui.exe") (world0 staged) tt).
  vm_compute. reflexivity.
Defined.

(** ** How many messages a run hands to the status sink *)

(** X2: a run that returns over [n] working directories of [m] images
    each hands the status sink two messages for the exploration, per
    directory five for the stages, one per saved image and one more when
    post-processing is enabled, and at the end the terminal message,
    preceded by the message of the upscale phase when that was requested. *)
Theorem statuses_count (A : Arith) (svc : Services)
    (kwargs : gmap string pyval) (w : World A) u w' (n m : nat) (pp : bool) :
  (forall i o d dirs d',
      explorer_run svc i o d = (Ok dirs, d') -> length dirs = n) ->
  (forall c pts d imgs d',
      img_slice svc c pts d = (Ok imgs, d') -> length imgs = m) ->
  (forall v, settings_load svc "run_postprocess" = Ok v -> truthy v = pp) ->
  run svc kwargs w = (Ok u, w') ->
  length (statuses w') =
    (length (statuses w) + 2 + n * (5 + m + (if pp then 1 else 0))
     + (if truthy (kw_get kwargs "use_waifu2x" (VBool false)) then 2 else 1))%nat.
Proof.
  intros Hdirs Himgs Hpp H.
  apply run_steps in H as (v & counts & Hv & Hex & Hsl & Hw).
  apply Hpp in Hv. rewrite Hv in Hw, Hsl.
  destruct Hex as (i & o & d & dirs & d' & Hex & Hlen).
  apply Hdirs in Hex. rewrite Hex in Hlen.
  assert (Forall (fun k => k = m) counts) as Hall.
  { eapply Forall_impl; [exact Hsl|].
    intros k [(c & pts & d0 & imgs & d0' & Hs & Hk) _]. apply Himgs in Hs.
    lia. }
  assert (length (percentages w') = length (statuses w')) as <-
    by apply length_fmap.
  assert (length (percentages w) = length (statuses w)) as <-
    by apply length_fmap.
  rewrite Hw, !length_app, length_fmap.
  rewrite (stitch_percentages_length pp counts m Hall), <- Hlen.
  unfold checkpoints. destruct (truthy (kw_get _ _ _)); simpl; lia.
Qed.

(** Three directories of two images each, post-processed and upscaled:
    [2 + 3 * (5 + 2 + 1) + 2 = 28] messages. *)
Lemma statuses_count_witness :
  length (statuses
            (run (A := binary64)
               (stub (store0 true) ["a"; "b"; "c"] 2 (Ok (0, "")))
               (upscale_kwargs "waifu2x-caffe-cui.exe") (world0 staged)).2)
  = (length (statuses (world0 (A := binary64) staged)) + 2
     + 3 * (5 + 2 + (if true then 1 else 0))
     + (if truthy (kw_get (upscale_kwargs "waifu2x-caffe-cui.exe")
                     "use_waifu2x" (VBool false)) then 2 else 1))%nat.
Proof.
  apply (statuses_count binary64
           (stub (store0 true) ["a"; "b"; "c"] 2 (Ok (0, "")))
           (upscale_kwargs "waifu2x-caffe-cui.exe") (world0 staged) tt).
  - intros i o d dirs d' H. by inversion H.
  - intros c pts d imgs d' H. by inversion H.
  - intros v H. by inversion H.
  - vm_compute. reflexivity.
Defined.

(** ** Nothing to stitch *)

Lemma weight_explore {A : Arith} (pp : bool) (w : World A) :
  weight (step_table pp) "explore" w = (Ok (lit A 5), w).
Proof. by destruct pp. Qed.

(** X3: when the exploration finds no working directory and no upscale
    pass is requested, [run] returns after exactly three messages (the two
    of the exploration, at [0.0], and the terminal one at [100]), having
    asked the settings store for ["detector_type"] and ["run_postprocess"]
    only: no division by the number of directories is evaluated. *)
Theorem no_working_directory (A : Arith) (svc : Services)
    (kwargs : gmap string pyval) (w : World A) dt det v d1 d2 :
  truthy (kw_get kwargs "use_waifu2x" (VBool false)) = false ->
  settings_load svc "detector_type" = Ok dt ->
  select_detector svc dt (disk w) = (Ok det, d1) ->
  settings_load svc "run_postprocess" = Ok v ->
  explorer_run svc (kw_get kwargs "input_path" (VStr ""))
    (kw_get kwargs "output_path" (VStr "")) d1 = (Ok [], d2) ->
  run svc kwargs w
  = (Ok tt,
     mkWorld
       (statuses w
          ++ [ (PFloat (lit A 0),
                "Exploring input directory for working directories"%string);
               (PFloat (lit A 0),
                "Working - [0] Working directories were found"%string);
               (PInt 100, completed svc) ])
       (settings_reads w ++ ["detector_type"; "run_postprocess"]%string)
       (detector_calls w) (launched w) (printed w) d2).
Proof.
  intros Hup Hdt Hsel Hpp Hex.
  unfold run, stitch. rewrite Hup.
  change (if negb (truthy ?b) then _ else _) with (step_table (A := A) (truthy b)).
  unfold mbind, M_bind, load, call, status_func. simpl.
  rewrite Hdt. simpl. rewrite Hsel. simpl. rewrite Hpp. simpl.
  rewrite Hex. simpl. rewrite weight_explore. simpl.
  by rewrite <- !app_assoc.
Qed.

Lemma no_working_directory_witness :
  run (A := binary64) (stub (store0 true) [] 3 (Ok (0, ""))) ∅ (world0 ∅)
  = (Ok tt,
     mkWorld
       (statuses (world0 (A := binary64) ∅)
          ++ [ (PFloat (lit binary64 0),
                "Exploring input directory for working directories"%string);
               (PFloat (lit binary64 0),
                "Working - [0] Working directories were found"%string);
               (PInt 100, completed (stub (store0 true) [] 3 (Ok (0, "")))) ])
       (settings_reads (world0 (A := binary64) ∅)
          ++ ["detector_type"; "run_postprocess"]%string)
       (detector_calls (world0 (A := binary64) ∅))
       (launched (world0 (A := binary64) ∅))
       (printed (world0 (A := binary64) ∅)) ∅).
Proof.
  apply (no_working_directory binary64 (stub (store0 true) [] 3 (Ok (0, "")))
           ∅ (world0 ∅) (VStr "pixel") tt (VBool true) ∅ ∅);
    reflexivity.
Defined.

(** ** A directory without images, post-processing on *)

(** X4: when every exploration finds at least one working directory,
    every slicing yields no image and post-processing is enabled, no run
    returns: the post-process increment divides by the number of
    directories times the number of images, which is zero.  (That the
    product is zero is an assumption on the arithmetic: it holds of every
    float that [float] can return.) *)
Theorem empty_slicing_with_postprocess_never_returns (A : Arith)
    (svc : Services) (kwargs : gmap string pyval) (w : World A) :
  (forall i o d dirs d',
      explorer_run svc i o d = (Ok dirs, d') -> dirs <> []) ->
  (forall c pts d imgs d',
      img_slice svc c pts d = (Ok imgs, d') -> imgs = []) ->
  (forall v, settings_load svc "run_postprocess" = Ok v -> truthy v = true) ->
  (forall n, explored svc n ->
      eqb A (mul A (float_of_nat n) (float_of_nat 0)) (lit A 0) = true) ->
  exists e, (run svc kwargs w).1 = Raise e.
Proof.
  intros Hdirs Himgs Hpp Hzero.
  destruct (run svc kwargs w) as [[u|e] w'] eqn:E; [exfalso|by eexists].
  apply run_steps in E as (v & counts & Hv & Hex & Hall & _).
  apply Hpp in Hv. rewrite Hv in Hall.
  pose proof (Hzero _ Hex) as Hz.
  destruct Hex as (i & o & d & dirs & d' & Hex & Hlen).
  apply Hdirs in Hex.
  destruct counts as [|k rest]; [by destruct dirs|].
  apply Forall_inv in Hall as [(c & pts & d0 & imgs & d0' & Hs & Hk) [_ Hdiv]].
  apply Himgs in Hs. subst imgs. simpl in Hk. subst k.
  rewrite Hdiv in Hz; [done|by right].
Qed.

Lemma empty_slicing_with_postprocess_never_returns_witness :
  exists e,
    (run (A := binary64) one_dir_no_image_postprocessed ∅ (world0 ∅)).1
    = Raise e.
Proof.
  apply (empty_slicing_with_postprocess_never_returns binary64
           one_dir_no_image_postprocessed ∅ (world0 ∅)).
  - intros i o d dirs d' H. by inversion H.
  - intros c pts d imgs d' H. by inversion H.
  - intros v H. by inversion H.
  - intros n (i & o & d & dirs & d' & H & Hn). inversion H; subst.
    reflexivity.
Defined.

(** ** The wrapper always leaves the sink on an idle message *)

Lemma run_Ok_last {A : Arith} (svc : Services) (kwargs : gmap string pyval)
    (w : World A) u w' :
  run svc kwargs w = (Ok u, w') ->
  last (statuses w') = Some (PInt 100, completed svc).
Proof.
  unfold run. intros H. apply bind_Ok in H as (p & w1 & _ & H).
  destruct (truthy _).
  - apply bind_Ok in H as (? & w2 & _ & H).
    apply bind_Ok in H as (? & w3 & _ & H).
    apply status_Ok in H. rewrite H. apply last_snoc.
  - apply status_Ok in H. rewrite H. apply last_snoc.
Qed.

(** X5: whatever [run] does, when [run_with_error_msgs] returns, the last
    message handed to the status sink is the terminal one, at [100]; and
    when it raises an [Exception], the last message is ["Idle - "] followed
    by the text of that exception, at [0]. *)
Theorem run_with_error_msgs_ends_idle (A : Arith) (svc : Services)
    (kwargs : gmap string pyval) (w : World A) :
  match run_with_error_msgs svc kwargs w with
  | (Ok _, w') => last (statuses w') = Some (PInt 100, completed svc)
  | (Raise e, w') =>
      is_Exception e = true ->
      last (statuses w')
      = Some (PInt 0, ("Idle - " ++ exn_msg e)%string)
  end.
Proof.
  unfold run_with_error_msgs, try_except, report_error.
  destruct (run svc kwargs w) as [[u|e] w1] eqn:E.
  - by apply run_Ok_last in E.
  - destruct (is_Exception e) eqn:He; simpl; [|by rewrite He].
    unfold mbind, M_bind, status_func, raise. simpl. intros _.
    apply last_snoc.
Qed.

(** ** [run_waifu2x], case by case *)

(** X6: for a recognized variant with an upscaler path, once the child
    process has exited and while the staging tree is there, [run_waifu2x]
    returns; it has launched exactly the command line of the variant and
    removed the staging tree, and it has printed one line, the captured
    error output, if and only if the exit status was not zero.  A failing
    upscaler does not make [run_waifu2x] raise. *)
Theorem run_waifu2x_after_exit (A : Arith) (svc : Services)
    (input_path : string) (output_path : pyval) (waifu_type : string)
    (kwargs : gmap string pyval) (w : World A) code err d :
  waifu_type = "caffe"%string \/ waifu_type = "vulkan"%string ->
  truthy (kw_get kwargs "path" (VStr "")) = true ->
  spawn svc (waifu_command waifu_type input_path output_path kwargs) (disk w)
  = (Ok (code, err), d) ->
  input_path ∈ d ->
  run_waifu2x svc input_path output_path waifu_type kwargs w
  = (Ok tt,
     mkWorld (statuses w) (settings_reads w) (detector_calls w)
       (launched w
          ++ [waifu_command waifu_type input_path output_path kwargs])
       (if code =? 0 then printed w
        else printed w
               ++ [("Error executing " ++ waifu_type ++ " command: "
                    ++ err)%string])
       (filter (fun p => in_tree input_path p = false) d)).
Proof.
  intros Ht Hpath Hspawn Hin. unfold run_waifu2x, waifu_command in *.
  rewrite Hpath.
  destruct Ht as [-> | ->]; simpl String.eqb in *; cbv iota in *;
    simpl orb; cbv iota;
    unfold try_except, subprocess_run, on_called_process_error, print, call,
      raise, rmtree, mbind, M_bind, mret, M_ret; simpl;
    rewrite Hspawn; simpl; destruct (code =? 0); simpl;
    by rewrite decide_True.
Qed.

(** The upscaler exits with status 1 and the error output [b'failed']. *)
Lemma run_waifu2x_after_exit_witness :
  let svc := stub (store0 false) ["chapter"] 3 (Ok (1, "b'failed'")) in
  let kwargs :=
    caffe_kwargs (upscale_kwargs "waifu2x-caffe-cui.exe") "models/cunet" in
  let w := world0 (A := binary64) staged in
  run_waifu2x svc "out/tmp" (VStr "out") "caffe" kwargs w
  = (Ok tt,
     mkWorld (statuses w) (settings_reads w) (detector_calls w)
       (launched w
          ++ [waifu_command "caffe" "out/tmp" (VStr "out") kwargs])
       (if 1 =? 0 then printed w
        else printed w
               ++ [("Error executing " ++ "caffe" ++ " command: "
                    ++ "b'failed'")%string])
       (filter (fun p => in_tree "out/tmp" p = false) staged)).
Proof.
  apply (run_waifu2x_after_exit binary64
           (stub (store0 false) ["chapter"] 3 (Ok (1, "b'failed'")))
           "out/tmp" (VStr "out") "caffe"
           (caffe_kwargs (upscale_kwargs "waifu2x-caffe-cui.exe")
              "models/cunet")
           (world0 staged) 1 "b'failed'" staged).
  - by left.
  - reflexivity.
  - reflexivity.
  - unfold staged. set_solver.
Defined.

(** X7: in the same situation but with no staging tree on the disk (no
    image was ever written under it), [run_waifu2x] raises
    [FileNotFoundError]: the upscaler has been launched, and
    [shutil.rmtree] is called on a path that does not exist. *)
Theorem run_waifu2x_without_staging_tree (A : Arith) (svc : Services)
    (input_path : string) (output_path : pyval) (waifu_type : string)
    (kwargs : gmap string pyval) (w : World A) code err d :
  waifu_type = "caffe"%string \/ waifu_type = "vulkan"%string ->
  truthy (kw_get kwargs "path" (VStr "")) = true ->
  spawn svc (waifu_command waifu_type input_path output_path kwargs) (disk w)
  = (Ok (code, err), d) ->
  input_path ∉ d ->
  exists e w',
    run_waifu2x svc input_path output_path waifu_type kwargs w = (Raise e, w')
    /\ exn_cls e = FileNotFoundError
    /\ launched w'
       = launched w
           ++ [waifu_command waifu_type input_path output_path kwargs]
    /\ disk w' = d.
Proof.
  intros Ht Hpath Hspawn Hin. unfold run_waifu2x, waifu_command in *.
  rewrite Hpath.
  destruct Ht as [-> | ->]; simpl String.eqb in *; cbv iota in *;
    simpl orb; cbv iota;
    unfold try_except, subprocess_run, on_called_process_error, print, call,
      raise, rmtree, mbind, M_bind, mret, M_ret; simpl;
    rewrite Hspawn; simpl; destruct (code =? 0); simpl;
    rewrite decide_False by done; by eexists _, _.
Qed.

(** The upscaler exits with status 0 on a disk that holds the output
    directory only. *)
Lemma run_waifu2x_without_staging_tree_witness :
  let svc := stub (store0 false) [] 0 (Ok (0, "")) in
  let kwargs :=
    caffe_kwargs (upscale_kwargs "waifu2x-caffe-cui.exe") "models/cunet" in
  let w := world0 (A := binary64) {[ "out" ]} in
  exists e w',
    run_waifu2x svc "out/tmp" (VStr "out") "caffe" kwargs w = (Raise e, w')
    /\ exn_cls e = FileNotFoundError
    /\ launched w'
       = launched w ++ [waifu_command "caffe" "out/tmp" (VStr "out") kwargs]
    /\ disk w' = {[ "out" ]}.
Proof.
  apply (run_waifu2x_without_staging_tree binary64
           (stub (store0 false) [] 0 (Ok (0, "")))
           "out/tmp" (VStr "out") "caffe"
           (caffe_kwargs (upscale_kwargs "waifu2x-caffe-cui.exe")
              "models/cunet")
           (world0 {[ "out" ]}) 0 "" {[ "out" ]}).
  - by left.
  - reflexivity.
  - reflexivity.
  - set_solver.
Defined.

(** X8: whatever the outcome, [run_waifu2x] launches a command only for a
    recognized variant with an upscaler path that is not empty, and then
    exactly one, the command line of the variant: an unrecognized variant
    or an empty path launches nothing. *)
Theorem run_waifu2x_launches (A : Arith) (svc : Services)
    (input_path : string) (output_path : pyval) (waifu_type : string)
    (kwargs : gmap string pyval) (w : World A) :
  launched (run_waifu2x svc input_path output_path waifu_type kwargs w).2
  = launched w
      ++ (if (String.eqb waifu_type "caffe" || String.eqb waifu_type "vulkan")
             && truthy (kw_get kwargs "path" (VStr ""))
          then [waifu_command waifu_type input_path output_path kwargs]
          else []).
Proof.
  unfold waifu_command.
  destruct (String.eqb waifu_type "caffe") eqn:Ec;
    [apply String.eqb_eq in Ec as ->
    |destruct (String.eqb waifu_type "vulkan") eqn:Ev;
       [apply String.eqb_eq in Ev as ->|]];
    destruct (truthy (kw_get kwargs "path" (VStr ""))) eqn:Hp; simpl;
    rewrite ?app_nil_r;
    try (by apply run_waifu2x_caffe_launched);
    try (by apply run_waifu2x_vulkan_launched);
    unfold run_waifu2x; rewrite ?Ec, ?Ev, ?Hp; simpl;
    unfold rmtree, mbind, M_bind, mret, M_ret; simpl;
    by repeat case_match.
Qed.

(** ** What a run launches and prints *)

Section Effects.
Context {A : Arith} (svc : Services).




Lemma run_waifu2x_Ok_removes input out t kw (w : World A) u w' :
  t = "caffe"%string \/ t = "vulkan"%string ->
  run_waifu2x svc input out t kw w = (Ok u, w') ->
  input ∉ disk w'.
Proof.
  intros Ht H. unfold run_waifu2x in H.
  apply bind_Ok in H as (? & w1 & _ & H).
  replace (String.eqb t "caffe" || String.eqb t "vulkan") with true in H
    by (by destruct Ht as [-> | ->]).
  pose proof (rmtree_removes input w1) as Hr. by rewrite H in Hr.
Qed.

Lemma bind_waifu_Ok kwargs (w : World A) t kw w' :
  bind_waifu kwargs w = (Ok (Some (t, kw)), w') ->
  t = "caffe"%string \/ t = "vulkan"%string.
Proof.
  unfold bind_waifu. intros H.
  repeat match type of H with
  | (if ?b then _ else _) _ = _ => destruct b
  end.
  - apply bind_Ok in H as (? & ? & _ & H). apply ret_Ok in H as [H _].
    inversion H. by left.
  - apply bind_Ok in H as (? & ? & _ & H). apply ret_Ok in H as [H _].
    inversion H. by right.
  - apply ret_Ok in H as [H _]. discriminate H.
Qed.


End Effects.


(** X10: a run with the upscale pass requested that returns has removed
    the staging directory, [output_path + "/tmp"]: it is not on the disk
    the run leaves. *)
Theorem staging_tree_gone_after_run (A : Arith) (svc : Services)
    (kwargs : gmap string pyval) (w : World A) u w' :
  truthy (kw_get kwargs "use_waifu2x" (VBool false)) = true ->
  run svc kwargs w = (Ok u, w') ->
  exists out,
    kw_get kwargs "output_path" (VStr "") = VStr out
    /\ (out ++ "/tmp")%string ∉ disk w'.
Proof.
  intros Hup H. unfold run in H. rewrite Hup in H.
  apply bind_Ok in H as (p & w1 & _ & H).
  apply bind_Ok in H as (? & w2 & _ & H).
  apply bind_Ok in H as (? & w3 & Hu & H).
  assert (disk w' = disk w3) as -> by (unfold status_func in H; by inversion H).
  unfold upscale in Hu.
  apply bind_Ok in Hu as (bound & w4 & Hb & Hu).
  apply bind_Ok in Hu as (tmp & w5 & Ht & Hu).
  apply lift_Ok in Ht as [Ht ->].
  destruct (kw_get kwargs "output_path" (VStr "")) as [| | | |out] eqn:Eo;
    try discriminate Ht.
  simpl in Ht. inversion Ht; subst tmp. exists out. split; [done|].
  destruct bound as [[t kw]|]; [|by apply raise_Ok in Hu].
  apply bind_waifu_Ok in Hb.
  by apply run_waifu2x_Ok_removes in Hu.
Qed.

Lemma staging_tree_gone_after_run_witness :
  exists out,
    kw_get (upscale_kwargs "waifu2x-ncnn-vulkan.exe") "output_path" (VStr "")
    = VStr out
    /\ (out ++ "/tmp")%string
         ∉ disk (run (A := binary64) one_dir_three_images
                   (upscale_kwargs "waifu2x-ncnn-vulkan.exe")
                   (world0 staged)).2.
Proof.
  apply (staging_tree_gone_after_run binary64 one_dir_three_images
           (upscale_kwargs "waifu2x-ncnn-vulkan.exe") (world0 staged) tt).
  - reflexivity.
  - vm_compute. reflexivity.
Defined.

(** ** What the weights add up to, in exact arithmetic *)

Section ExactProgress.
Local Open Scope Q_scope.










End ExactProgress.






(** ** The keyword arguments each variant depends on *)

(** The keyword arguments the [cui.exe] branch of [run] passes on. *)
Definition caffe_keys : list string :=
  [ "waifu2x_path"; "output_path"; "output_type"; "mode"; "scale_ratio";
    "noise_level"; "processWaifu"; "crop_size"; "output_quality";
    "output_depth"; "batch_size"; "gpu_device"; "tta" ]%string.

(** The keyword arguments the [vulkan.exe] branch of [run] passes on. *)
Definition vulkan_keys : list string :=
  [ "waifu2x_path"; "output_path"; "output_type"; "noise_level";
    "scale_ratio"; "tile"; "processWaifu"; "profile" ]%string.

Lemma kw_get_agree (keys : list string) (k1 k2 : gmap string pyval) key dflt :
  (forall key, key ∈ keys -> k1 !! key = k2 !! key) ->
  key ∈ keys -> kw_get k1 key dflt = kw_get k2 key dflt.
Proof. intros H Hin. unfold kw_get. by rewrite (H key Hin). Qed.

(** Rewrites the reads of one dictionary into those of another that agrees
    with it on [keys]. *)
Ltac agree_on H k1 :=
  repeat match goal with
  | |- context [kw_get k1 ?key ?dflt] =>
      rewrite (kw_get_agree _ k1 _ key dflt H)
        by (repeat first [apply list_elem_of_here | apply list_elem_of_further])
  end.

Lemma caffe_kwargs_path kwargs model :
  kw_get (caffe_kwargs kwargs model) "path" (VStr "")
  = VStr (py_str (kw_get kwargs "waifu2x_path" (VStr ""))).
Proof. unfold caffe_kwargs. abstract_kwargs kwargs. by vm_compute. Qed.

Lemma vulkan_kwargs_path kwargs model :
  kw_get (vulkan_kwargs kwargs model) "path" (VStr "")
  = VStr (py_str (kw_get kwargs "waifu2x_path" (VStr ""))).
Proof.
  unfold vulkan_kwargs. abstract_kwargs kwargs.
  match goal with |- context [String.eqb ?a ?b] =>
    destruct (String.eqb a b) end; by vm_compute.
Qed.

Lemma run_waifu2x_caffe_congr {A : Arith} (svc : Services) input out kw1 kw2
    (w : World A) :
  kw_get kw1 "path" (VStr "") = kw_get kw2 "path" (VStr "") ->
  caffe_command input out kw1 = caffe_command input out kw2 ->
  run_waifu2x svc input out "caffe" kw1 w
  = run_waifu2x svc input out "caffe" kw2 w.
Proof. unfold run_waifu2x. by intros -> ->. Qed.

Lemma run_waifu2x_vulkan_congr {A : Arith} (svc : Services) input out kw1 kw2
    (w : World A) :
  kw_get kw1 "path" (VStr "") = kw_get kw2 "path" (VStr "") ->
  vulkan_command input out kw1 = vulkan_command input out kw2 ->
  run_waifu2x svc input out "vulkan" kw1 w
  = run_waifu2x svc input out "vulkan" kw2 w.
Proof. unfold run_waifu2x. by intros -> ->. Qed.

(** X13: under a [cui.exe] upscaler the upscale dispatch depends on the
    keyword arguments only through the thirteen keys of [caffe_keys]: two
    calls that agree on them, each with a profile that is a string, launch
    the same command and end alike.  The profile in particular, and the
    model path built from it, never reach the command line. *)
Theorem caffe_upscale_depends_on_caffe_keys (A : Arith) (svc : Services)
    (k1 k2 : gmap string pyval) (w : World A) (p1 p2 : string) :
  (forall key, key ∈ caffe_keys -> k1 !! key = k2 !! key) ->
  endswith (py_str (kw_get k1 "waifu2x_path" (VStr ""))) "cui.exe" = true ->
  kw_get k1 "profile" (VStr "cunet") = VStr p1 ->
  kw_get k2 "profile" (VStr "cunet") = VStr p2 ->
  upscale svc k1 w = upscale svc k2 w.
Proof.
  intros H Hend Hp1 Hp2. unfold upscale, bind_waifu.
  rewrite Hp1, Hp2. revert Hend. agree_on H k1. intros Hend. rewrite Hend.
  unfold mbind, M_bind, mret, M_ret, lift, str_add. simpl.
  destruct (kw_get k2 "output_path" (VStr "")) as [| | | |out]; try done.
  simpl. apply run_waifu2x_caffe_congr.
  - rewrite !caffe_kwargs_path. by agree_on H k1.
  - rewrite !caffe_command_of_kwargs. cbv zeta. by agree_on H k1.
Qed.

(** The profile [anime_style_art_rgb] instead of the default one. *)
Lemma caffe_upscale_depends_on_caffe_keys_witness :
  upscale (A := binary64) one_dir_three_images
    (upscale_kwargs "waifu2x-caffe-cui.exe") (world0 staged)
  = upscale one_dir_three_images
      (<["profile" := VStr "anime_style_art_rgb"]>
         (upscale_kwargs "waifu2x-caffe-cui.exe")) (world0 staged).
Proof.
  apply (caffe_upscale_depends_on_caffe_keys binary64 one_dir_three_images
           (upscale_kwargs "waifu2x-caffe-cui.exe")
           (<["profile" := VStr "anime_style_art_rgb"]>
              (upscale_kwargs "waifu2x-caffe-cui.exe"))
           (world0 staged) "cunet" "anime_style_art_rgb").
  - intros key Hin. unfold caffe_keys in Hin.
    repeat (apply elem_of_cons in Hin as [->|Hin]; [reflexivity|]).
    by apply elem_of_nil in Hin.
  - reflexivity.
  - reflexivity.
  - reflexivity.
Defined.

(** X14: under a [vulkan.exe] upscaler the upscale dispatch depends on
    the keyword arguments only through the eight keys of [vulkan_keys]:
    the mode, crop size, output quality, output depth, batch size, GPU
    device and TTA of the other variant have no effect. *)
Theorem vulkan_upscale_depends_on_vulkan_keys (A : Arith) (svc : Services)
    (k1 k2 : gmap string pyval) (w : World A) :
  (forall key, key ∈ vulkan_keys -> k1 !! key = k2 !! key) ->
  endswith (py_str (kw_get k1 "waifu2x_path" (VStr ""))) "vulkan.exe" = true ->
  upscale svc k1 w = upscale svc k2 w.
Proof.
  intros H Hend. unfold upscale, bind_waifu.
  revert Hend. agree_on H k1. intros Hend.
  rewrite (endswith_vulkan_not_cui _ Hend), Hend.
  unfold mbind, M_bind, mret, M_ret, lift, str_add.
  destruct (kw_get k2 "profile" (VStr "cunet")) as [| | | |profile]; try done.
  simpl.
  destruct (kw_get k2 "output_path" (VStr "")) as [| | | |out]; try done.
  simpl. apply run_waifu2x_vulkan_congr.
  - rewrite !vulkan_kwargs_path. by agree_on H k1.
  - rewrite !vulkan_command_of_kwargs. cbv zeta. by agree_on H k1.
Qed.

(** A batch size and a mode, which only the other variant takes. *)
Lemma vulkan_upscale_depends_on_vulkan_keys_witness :
  upscale (A := binary64) one_dir_three_images
    (upscale_kwargs "waifu2x-ncnn-vulkan.exe") (world0 staged)
  = upscale one_dir_three_images
      (<["batch_size" := VInt 4]>
         (<["mode" := VStr "scale"]>
            (upscale_kwargs "waifu2x-ncnn-vulkan.exe"))) (world0 staged).
Proof.
  apply (vulkan_upscale_depends_on_vulkan_keys binary64 one_dir_three_images
           (upscale_kwargs "waifu2x-ncnn-vulkan.exe")
           (<["batch_size" := VInt 4]>
              (<["mode" := VStr "scale"]>
                 (upscale_kwargs "waifu2x-ncnn-vulkan.exe")))
           (world0 staged)).
  - intros key Hin. unfold vulkan_keys in Hin.
    repeat (apply elem_of_cons in Hin as [->|Hin]; [reflexivity|]).
    by apply elem_of_nil in Hin.
  - reflexivity.
Defined.

(** ** The settings a run reads, in order *)

(** The keys read while the [k] images of a directory are saved. *)
Definition image_keys (k : nat) : list string :=
  concat (replicate k ["output_type"; "lossy_quality"]%string).

(** The keys read while one working directory of [k] images is
    processed. *)
Definition dir_keys (pp : bool) (k : nat) : list string :=
  [ "enforce_type"; "enforce_width"; "split_height"; "senstivity";
    "ignorable_pixels"; "scan_step" ]%string
  ++ image_keys k
  ++ ["run_postprocess"%string]
  ++ (if pp then ["postprocess_app"; "postprocess_args"]%string else []).

(** The keys read by a whole run over directories of [counts] images. *)
Definition run_keys (pp : bool) (counts : list nat) : list string :=
  ["detector_type"; "run_postprocess"]%string
  ++ concat (dir_keys pp <$> counts).

(** The detector call [c] was handed the four values the settings store
    holds. *)
Definition scanned_with (svc : Services) (c : pyval * pyval * pyval * pyval)
    : Prop :=
  settings_load svc "split_height" = Ok c.1.1.1
  /\ settings_load svc "senstivity" = Ok c.1.1.2
  /\ settings_load svc "ignorable_pixels" = Ok c.1.2
  /\ settings_load svc "scan_step" = Ok c.2.

Section Reads.
Context {A : Arith} (svc : Services).

Lemma status_eff p msg x (w w' : World A) :
  status_func p msg w = (Ok x, w') ->
  settings_reads w' = settings_reads w
  /\ detector_calls w' = detector_calls w.
Proof. unfold status_func. intros H. by inversion H. Qed.

Lemma call_eff {X} (c : IO X) (x : X) (w w' : World A) :
  call c w = (Ok x, w') ->
  settings_reads w' = settings_reads w
  /\ detector_calls w' = detector_calls w
  /\ exists d, c (disk w) = (Ok x, d).
Proof.
  unfold call. destruct (c (disk w)) as [r d] eqn:E. intros H.
  inversion H; subst. eauto.
Qed.

Lemma load_eff key v (w w' : World A) :
  load svc key w = (Ok v, w') ->
  settings_reads w' = settings_reads w ++ [key]
  /\ detector_calls w' = detector_calls w
  /\ settings_load svc key = Ok v.
Proof. unfold load. intros H. by inversion H. Qed.

Lemma detect_eff det c sh se ig sc x (w w' : World A) :
  detect svc det c sh se ig sc w = (Ok x, w') ->
  settings_reads w' = settings_reads w
  /\ detector_calls w' = detector_calls w ++ [(sh, se, ig, sc)].
Proof.
  unfold detect. intros H. apply call_eff in H as (H1 & H2 & _). done.
Qed.

End Reads.

(** One step of a run that returned, for what it read. *)
Ltac step_eff :=
  match goal with
  | H : mbind _ _ _ = (Ok _, _) |- _ =>
      let H1 := fresh "Hstep" in
      apply bind_Ok in H as (? & ? & H1 & H); cbv beta zeta in H
  | H : mret _ _ = (Ok _, _) |- _ => apply ret_Ok in H as [? ?]; subst
  | H : raise _ _ = (Ok _, _) |- _ => by apply raise_Ok in H
  | H : lift _ _ = (Ok _, _) |- _ => apply lift_Ok in H as [? ?]; subst
  | H : status_func _ _ _ = (Ok _, _) |- _ => apply status_eff in H as [? ?]
  | H : call _ _ = (Ok _, _) |- _ => apply call_eff in H as (? & ? & ? & ?)
  | H : load _ _ _ = (Ok _, _) |- _ => apply load_eff in H as (? & ? & ?)
  | H : detect _ _ _ _ _ _ _ _ = (Ok _, _) |- _ =>
      apply detect_eff in H as [? ?]
  | H : weight _ _ _ = (Ok _, _) |- _ => apply weight_Ok in H as [? ?]; subst
  | H : pydiv _ _ _ = (Ok _, _) |- _ => apply pydiv_Ok in H as (? & ? & ?); subst
  end.

(** Rewrites what the worlds a run went through have read into what its
    first world had. *)
Ltac chain_reads :=
  repeat match goal with
  | H : settings_reads ?w' = _ |- context [settings_reads ?w'] => rewrite H
  | H : detector_calls ?w' = _ |- context [detector_calls ?w'] => rewrite H
  end.

Section ReadsOfRun.
Context {A : Arith} (svc : Services).

Lemma save_images_reads tbl n it dir k imgs i p (w : World A) p' w' :
  save_images svc tbl n it dir k imgs i p w = (Ok p', w') ->
  settings_reads w' = settings_reads w ++ image_keys (length imgs)
  /\ detector_calls w' = detector_calls w.
Proof.
  revert i p w. induction imgs as [|img rest IH]; intros i p w H;
    simpl in H.
  - step_eff. unfold image_keys. simpl. by rewrite app_nil_r.
  - repeat step_eff. apply IH in H as [Hrest1 Hrest2].
    split; chain_reads; [|done].
    unfold image_keys. simpl. by rewrite <- !app_assoc.
Qed.

Lemma process_dir_reads det tbl n it dir p (w : World A) p' w' :
  process_dir svc det tbl n it dir p w = (Ok p', w') ->
  exists k v c,
    sliced svc k /\ settings_load svc "run_postprocess" = Ok v
    /\ scanned_with svc c
    /\ settings_reads w' = settings_reads w ++ dir_keys (truthy v) k
    /\ detector_calls w' = detector_calls w ++ [c].
Proof.
  unfold process_dir. intros H. repeat step_eff.
  match goal with E : img_slice _ _ _ _ = (Ok ?imgs, _) |- _ =>
    exists (length imgs); pose proof E as Hsl end.
  match goal with E : settings_load _ "run_postprocess" = Ok ?v |- _ =>
    exists v; pose proof E as Hpp end.
  match goal with E : detector_calls _ = _ ++ [?c] |- _ => exists c end.
  split; [by repeat eexists|]. split; [done|]. split; [done|].
  match goal with E : save_images _ _ _ _ _ _ _ _ _ _ = _ |- _ =>
    apply save_images_reads in E as [Hs1 Hs2] end.
  unfold dir_keys. destruct (truthy _).
  - repeat step_eff. split; chain_reads; [|done].
    simpl. by rewrite <- !app_assoc.
  - step_eff. split; chain_reads; [|done].
    simpl. by rewrite <- !app_assoc.
Qed.

Lemma process_dirs_reads det tbl n dirs it p (w : World A) p' w' pp :
  (forall v, settings_load svc "run_postprocess" = Ok v -> truthy v = pp) ->
  process_dirs svc det tbl n dirs it p w = (Ok p', w') ->
  exists counts cs,
    length counts = length dirs
    /\ Forall (sliced svc) counts
    /\ settings_reads w' = settings_reads w ++ concat (dir_keys pp <$> counts)
    /\ detector_calls w' = detector_calls w ++ cs
    /\ length cs = length dirs
    /\ Forall (scanned_with svc) cs.
Proof.
  intros Hpp. revert it p w p'.
  induction dirs as [|dir rest IH]; intros it p w p' H; simpl in H.
  - step_eff. exists [], []. simpl. by rewrite !app_nil_r.
  - step_eff.
    apply process_dir_reads in Hstep as (k & v & c & Hk & Hv & Hc & Hr & Hd).
    apply IH in H as (counts & cs & Hlen & Hall & Hr' & Hd' & Hlen' & Hall').
    apply Hpp in Hv. rewrite Hv in *. clear Hv.
    exists (k :: counts), (c :: cs). simpl. rewrite Hlen, Hlen'.
    split; [done|]. split; [by constructor|]. split.
    { by rewrite Hr', Hr, <- app_assoc. }
    split; [by rewrite Hd', Hd, <- app_assoc|]. split; [done|].
    by constructor.
Qed.

Lemma stitch_reads kwargs (w : World A) p w' :
  stitch svc kwargs w = (Ok p, w') ->
  exists v counts cs,
    settings_load svc "run_postprocess" = Ok v
    /\ explored svc (length counts)
    /\ Forall (sliced svc) counts
    /\ settings_reads w' = settings_reads w ++ run_keys (truthy v) counts
    /\ detector_calls w' = detector_calls w ++ cs
    /\ length cs = length counts
    /\ Forall (scanned_with svc) cs.
Proof.
  unfold stitch. intros H.
  apply bind_Ok in H as (dt & w1 & H1 & H). apply load_eff in H1 as (R1 & D1 & _).
  apply bind_Ok in H as (det & w2 & H2 & H). apply call_eff in H2 as (R2 & D2 & _).
  apply bind_Ok in H as (v & w3 & H3 & H). apply load_eff in H3 as (R3 & D3 & Hv).
  cbv beta zeta in H.
  apply bind_Ok in H as (u & w4 & H4 & H). apply status_eff in H4 as [R4 D4].
  apply bind_Ok in H as (dirs & w5 & H5 & H).
  assert (settings_reads w5 = settings_reads w4
          /\ detector_calls w5 = detector_calls w4
          /\ exists i o d d', explorer_run svc i o d = (Ok dirs, d'))
    as (R5 & D5 & i & o & d & d' & Hex).
  { destruct (truthy (kw_get kwargs "use_waifu2x" (VBool false)));
      repeat step_eff; eauto 10. }
  clear H5. cbv beta zeta in H.
  apply bind_Ok in H as (u' & w6 & H6 & H). apply status_eff in H6 as [R6 D6].
  apply bind_Ok in H as (x & w7 & H7 & H).
  apply weight_Ok in H7 as [-> _].
  eapply process_dirs_reads
    in H as (counts & cs & Hlen & Hall & Hr & Hd & Hlen' & Hall').
  2:{ intros v' Hv'. rewrite Hv in Hv'. by inversion Hv'. }
  exists v, counts, cs. split; [done|]. split.
  { exists i, o, d, dirs, d'. by rewrite Hlen. }
  split; [done|]. unfold run_keys. split.
  { chain_reads. by rewrite <- !app_assoc. }
  split; [by chain_reads|]. split; [by rewrite Hlen', Hlen|done].
Qed.

End ReadsOfRun.

(** X15: a run that returns has asked the settings store for
    ["detector_type"] and ["run_postprocess"], then, for each working
    directory in turn, for the two resize settings, the four detector
    settings, ["output_type"] and ["lossy_quality"] once per saved image,
    ["run_postprocess"] again and, when that is set, the post-process
    application and its arguments; and it has called the detector once per
    working directory, each time with the split height, sensitivity,
    ignorable pixels and scan step the store holds. *)
Theorem settings_read_in_order (A : Arith) (svc : Services)
    (kwargs : gmap string pyval) (w : World A) u w' :
  run svc kwargs w = (Ok u, w') ->
  exists v counts cs,
    settings_load svc "run_postprocess" = Ok v
    /\ explored svc (length counts)
    /\ Forall (sliced svc) counts
    /\ settings_reads w' = settings_reads w ++ run_keys (truthy v) counts
    /\ detector_calls w' = detector_calls w ++ cs
    /\ length cs = length counts
    /\ Forall (scanned_with svc) cs.
Proof.
  unfold run. intros H.
  apply bind_Ok in H as (p & w1 & H1 & H).
  apply stitch_reads
    in H1 as (v & counts & cs & Hv & Hex & Hall & Hr & Hd & Hlen & Hcs).
  exists v, counts, cs. do 3 (split; [done|]).
  destruct (truthy (kw_get kwargs "use_waifu2x" (VBool false))).
  - apply bind_Ok in H as (u1 & w2 & H2 & H). apply status_eff in H2 as [R2 D2].
    apply bind_Ok in H as (u2 & w3 & H3 & H). apply status_eff in H as [R4 D4].
    pose proof (upscale_frame svc kwargs w2) as (_ & R3 & D3).
    rewrite H3 in R3, D3. simpl in R3, D3.
    split; [by chain_reads|]. split; [by chain_reads|done].
  - apply status_eff in H as [R2 D2].
    split; [by chain_reads|]. split; [by chain_reads|done].
Qed.

(** Two directories of three images, post-processing off. *)
Lemma settings_read_in_order_witness :
  exists v counts cs,
    settings_load two_dirs_three_images "run_postprocess" = Ok v
    /\ explored two_dirs_three_images (length counts)
    /\ Forall (sliced two_dirs_three_images) counts
    /\ settings_reads
         (run (A := binary64) two_dirs_three_images ∅ (world0 ∅)).2
       = settings_reads (world0 (A := binary64) ∅)
           ++ run_keys (truthy v) counts
    /\ detector_calls
         (run (A := binary64) two_dirs_three_images ∅ (world0 ∅)).2
       = detector_calls (world0 (A := binary64) ∅) ++ cs
    /\ length cs = length counts
    /\ Forall (scanned_with two_dirs_three_images) cs.
Proof.
  apply (settings_read_in_order binary64 two_dirs_three_images ∅ (world0 ∅)
           tt).
  vm_compute. reflexivity.
Defined.

(** ** Where the images are written *)



(** ** Settings the store does not hold *)

(** X17: the detector is selected before anything is reported: when the
    settings store raises on ["detector_type"], [run] raises the same
    exception having handed no message to the status sink, and having asked
    the store for that key only. *)
Theorem missing_detector_type (A : Arith) (svc : Services)
    (kwargs : gmap string pyval) (w : World A) e :
  settings_load svc "detector_type" = Raise e ->
  run svc kwargs w
  = (Raise e,
     mkWorld (statuses w) (settings_reads w ++ ["detector_type"%string])
       (detector_calls w) (launched w) (printed w) (disk w)).
Proof.
  intros H. unfold run, stitch, mbind, M_bind, load. by rewrite H.
Qed.

Lemma missing_detector_type_witness :
  let svc := stub ∅ ["chapter"] 3 (Ok (0, "")) in
  let w := world0 (A := binary64) ∅ in
  run svc ∅ w
  = (Raise (Exn KeyError "detector_type"),
     mkWorld (statuses w) (settings_reads w ++ ["detector_type"%string])
       (detector_calls w) (launched w) (printed w) (disk w)).
Proof.
  apply (missing_detector_type binary64 (stub ∅ ["chapter"] 3 (Ok (0, "")))
           ∅ (world0 ∅) (Exn KeyError "detector_type")).
  reflexivity.
Defined.

(** X18: the sensitivity is asked for under ["senstivity"] in every working
    directory: when the settings store raises on that key and every
    exploration finds at least one working directory, no run returns. *)
Theorem missing_senstivity_never_returns (A : Arith) (svc : Services)
    (kwargs : gmap string pyval) (w : World A) e :
  settings_load svc "senstivity" = Raise e ->
  (forall i o d dirs d',
      explorer_run svc i o d = (Ok dirs, d') -> dirs <> []) ->
  exists e', (run svc kwargs w).1 = Raise e'.
Proof.
  intros Hs Hdirs.
  destruct (run svc kwargs w) as [[u|e'] w'] eqn:E; [exfalso|by eexists].
  apply bind_Ok in E as (p & w1 & E & _).
  apply stitch_reads
    in E as (v & counts & cs & _ & Hex & _ & _ & _ & Hlen & Hcs).
  destruct Hex as (i & o & d & dirs & d' & Hex & Hl). apply Hdirs in Hex.
  destruct cs as [|c cs].
  - destruct counts; [by destruct dirs|done].
  - apply Forall_inv in Hcs as (_ & Hc & _). by rewrite Hs in Hc.
Qed.

(** A store that holds the sensitivity under its documented spelling
    only. *)
Lemma missing_senstivity_never_returns_witness :
  exists e',
    (run (A := binary64)
       (stub (<["sensitivity" := VInt 90]> (delete "senstivity" (store0 false)))
          ["chapter"] 3 (Ok (0, "")))
       ∅ (world0 ∅)).1 = Raise e'.
Proof.
  apply (missing_senstivity_never_returns binary64
           (stub (<["sensitivity" := VInt 90]>
                    (delete "senstivity" (store0 false)))
              ["chapter"] 3 (Ok (0, "")))
           ∅ (world0 ∅) (Exn KeyError "senstivity")).
  - reflexivity.
  - intros i o d dirs d' H. by inversion H.
Defined.

(** ** The messages of a run, in order *)

(** The message that reports the file [file] saved. *)
Definition saved_message (it n : nat) (file : string) : string :=
  working it n (file ++ " has been successfully saved")%string.

(** The messages of the [it]-th of [n] working directories, whose images
    were saved under the names [files]. *)
Definition dir_messages (pp : bool) (n it : nat) (files : list string)
    : list string :=
  [ working it n "Preparing & loading images Into memory";
    working it n "Combining images into a single combined image";
    working it n "Detecting & selecting valid slicing points";
    working it n "Generating sliced output images in memory";
    working it n "Saving output images to storage" ]
  ++ (saved_message it n <$> files)
  ++ (if pp then [working it n "Running post process on output files"]
      else []).

(** The messages of the working directories from the [it]-th on. *)
Fixpoint dirs_messages (pp : bool) (n it : nat) (files : list (list string))
    : list string :=
  match files with
  | [] => []
  | f :: rest => dir_messages pp n it f ++ dirs_messages pp n (S it) rest
  end.

(** The messages of a whole run. *)
Definition run_messages (svc : Services) (pp upscaling : bool)
    (files : list (list string)) : list string :=
  [ "Exploring input directory for working directories";
    ("Working - [" ++ pretty (length files)
       ++ "] Working directories were found")%string ]
  ++ dirs_messages pp (length files) 1 files
  ++ (if upscaling then ["Waifu2x-Caffe is processing"] else [])
  ++ [completed svc].

(** The messages handed to the status sink. *)
Definition messages {A : Arith} (w : World A) : list string := (statuses w).*2.

Section Messages.
Context {A : Arith} (svc : Services).

(** [name] is a file name some [save] returned. *)
Definition saved (name : string) : Prop :=
  exists dir img i f q d d', img_save svc dir img i f q d = (Ok name, d').

Lemma messages_snoc (w w' : World A) p msg :
  statuses w' = statuses w ++ [(p, msg)] -> messages w' = messages w ++ [msg].
Proof. unfold messages. intros ->. by rewrite fmap_app. Qed.

Lemma messages_same (w w' : World A) :
  statuses w' = statuses w -> messages w' = messages w.
Proof. unfold messages. by intros ->. Qed.

End Messages.

(** Rewrites the messages of the worlds a run went through into those of
    its first world. *)
Ltac chain_messages :=
  repeat match goal with
  | H : statuses ?w' = (statuses ?w ++ [_])%list |- _ =>
      apply messages_snoc in H
  | H : statuses ?w' = statuses ?w |- _ => apply messages_same in H
  end;
  repeat match goal with
  | H : messages ?w' = _ |- context [messages ?w'] => rewrite H
  end.

Section MessagesOfRun.
Context {A : Arith} (svc : Services).

Lemma save_images_messages tbl n it dir k imgs i p (w : World A) p' w' :
  save_images svc tbl n it dir k imgs i p w = (Ok p', w') ->
  exists files,
    Forall (saved svc) files
    /\ length files = length imgs
    /\ messages w' = messages w ++ (saved_message it n <$> files).
Proof.
  revert i p w. induction imgs as [|img rest IH]; intros i p w H;
    simpl in H.
  - step_ok. exists []. simpl. by rewrite app_nil_r.
  - repeat step_ok. apply IH in H as (files & Hall & Hlen & Hm).
    match goal with E : img_save _ _ _ _ _ _ _ = (Ok ?name, _) |- _ =>
      exists (name :: files); pose proof E as Hname end.
    split; [constructor; [by repeat eexists|done]|].
    split; [simpl; by rewrite Hlen|].
    chain_messages. simpl. by rewrite <- app_assoc.
Qed.

Lemma process_dir_messages det tbl n it dir p (w : World A) p' w' :
  process_dir svc det tbl n it dir p w = (Ok p', w') ->
  exists files v,
    Forall (saved svc) files
    /\ settings_load svc "run_postprocess" = Ok v
    /\ messages w' = messages w ++ dir_messages (truthy v) n it files.
Proof.
  unfold process_dir. intros H. repeat step_ok.
  match goal with E : save_images _ _ _ _ _ _ _ _ _ _ = _ |- _ =>
    apply save_images_messages in E as (files & Hall & _ & Hsave) end.
  match goal with E : settings_load _ "run_postprocess" = Ok ?v |- _ =>
    exists files, v; pose proof E as Hpp end.
  split; [done|]. split; [done|].
  unfold dir_messages. destruct (truthy _).
  - repeat step_ok. chain_messages. simpl. by rewrite <- !app_assoc.
  - step_ok. chain_messages. simpl. by rewrite <- !app_assoc, app_nil_r.
Qed.

Lemma process_dirs_messages det tbl n dirs it p (w : World A) p' w' pp :
  (forall v, settings_load svc "run_postprocess" = Ok v -> truthy v = pp) ->
  process_dirs svc det tbl n dirs it p w = (Ok p', w') ->
  exists files,
    length files = length dirs
    /\ Forall (Forall (saved svc)) files
    /\ messages w' = messages w ++ dirs_messages pp n it files.
Proof.
  intros Hpp. revert it p w p'.
  induction dirs as [|dir rest IH]; intros it p w p' H; simpl in H.
  - step_ok. exists []. simpl. by rewrite app_nil_r.
  - step_ok.
    apply process_dir_messages in Hstep as (f & v & Hf & Hv & Hm).
    apply IH in H as (files & Hlen & Hall & Hm').
    apply Hpp in Hv. rewrite Hv in *. clear Hv.
    exists (f :: files). simpl. rewrite Hlen.
    split; [done|]. split; [by constructor|].
    by rewrite Hm', Hm, <- app_assoc.
Qed.

End MessagesOfRun.

(** X19: the messages a run that returns has handed to the status sink
    are, in order: the two of the exploration, the second giving the number
    of working directories; for the [i]-th of the [n] directories, each
    prefixed ["Working - [i/n] "], the five of the stages, one per saved
    image that names the file [save] returned, and one for the post-process
    when that is enabled; ["Waifu2x-Caffe is processing"] when the upscale
    pass was requested, whichever the upscaler; and the terminal message
    with the elapsed time. *)
Theorem messages_in_order (A : Arith) (svc : Services)
    (kwargs : gmap string pyval) (w : World A) u w' :
  run svc kwargs w = (Ok u, w') ->
  exists v files,
    settings_load svc "run_postprocess" = Ok v
    /\ Forall (Forall (saved svc)) files
    /\ messages w'
       = messages w
           ++ run_messages svc (truthy v)
                (truthy (kw_get kwargs "use_waifu2x" (VBool false))) files.
Proof.
  unfold run. intros H.
  apply bind_Ok in H as (p & w1 & H1 & H).
  assert (exists v files,
            settings_load svc "run_postprocess" = Ok v
            /\ Forall (Forall (saved svc)) files
            /\ messages w1
               = messages w
                   ++ [ "Exploring input directory for working directories";
                        ("Working - [" ++ pretty (length files)
                           ++ "] Working directories were found")%string ]
                   ++ dirs_messages (truthy v) (length files) 1 files)
    as (v & files & Hv & Hall & Hm).
  { unfold stitch in H1.
    apply bind_Ok in H1 as (dt & wa & Ha & H1). apply load_Ok in Ha as [Sa _].
    apply bind_Ok in H1 as (det & wb & Hb & H1). apply call_Ok in Hb as [Sb _].
    apply bind_Ok in H1 as (v & wc & Hc & H1). apply load_Ok in Hc as [Sc Hv].
    cbv beta zeta in H1.
    apply bind_Ok in H1 as (ud & wd & Hd & H1). apply status_Ok in Hd.
    apply bind_Ok in H1 as (dirs & we & He & H1).
    assert (statuses we = statuses wd) as Se.
    { destruct (truthy (kw_get kwargs "use_waifu2x" (VBool false)));
        repeat step_ok; congruence. }
    clear He. cbv beta zeta in H1.
    apply bind_Ok in H1 as (uf & wf & Hf & H1). apply status_Ok in Hf.
    apply bind_Ok in H1 as (wx & wg & Hg & H1).
    apply weight_Ok in Hg as [-> _].
    eapply process_dirs_messages in H1 as (files & Hlen & Hall & Hm).
    2:{ intros v' Hv'. rewrite Hv in Hv'. by inversion Hv'. }
    exists v, files. split; [done|]. split; [done|].
    rewrite Hlen. chain_messages. by rewrite <- !app_assoc. }
  exists v, files. split; [done|]. split; [done|].
  unfold run_messages.
  destruct (truthy (kw_get kwargs "use_waifu2x" (VBool false))).
  - apply bind_Ok in H as (u1 & w2 & H2 & H). apply status_Ok in H2.
    apply bind_Ok in H as (u2 & w3 & H3 & H). apply status_Ok in H.
    pose proof (upscale_frame svc kwargs w2) as [Hf _].
    rewrite H3 in Hf. simpl in Hf.
    chain_messages. simpl. by rewrite <- !app_assoc.
  - apply status_Ok in H. chain_messages. simpl. by rewrite <- !app_assoc.
Qed.

(** One directory of three images, upscaled with the Vulkan variant. *)
Lemma messages_in_order_witness :
  exists v files,
    settings_load one_dir_three_images "run_postprocess" = Ok v
    /\ Forall (Forall (saved one_dir_three_images)) files
    /\ messages (run (A := binary64) one_dir_three_images
                   (upscale_kwargs "waifu2x-ncnn-vulkan.exe")
                   (world0 staged)).2
       = messages (world0 (A := binary64) staged)
           ++ run_messages one_dir_three_images (truthy v)
                (truthy (kw_get (upscale_kwargs "waifu2x-ncnn-vulkan.exe")
                           "use_waifu2x" (VBool false))) files.
Proof.
  apply (messages_in_order binary64 one_dir_three_images
           (upscale_kwargs "waifu2x-ncnn-vulkan.exe") (world0 staged) tt).
  vm_compute. reflexivity.
Defined.

(** ** Where the exceptions of a run come from *)



Section Blame.
Context {A : Arith} (svc : Services).














End Blame.


Section BlameOfRun.
Context {A : Arith} (svc : Services).








End BlameOfRun.


